(** * audio-vibe-server: the response cache, the songs route, the download
      route and the command runner

    A shallow embedding of the route handlers of the server
    (POST /cache-request, GET /songs/:id and POST /music-url), of the
    application's error listener and of the command runner of lib/exec.ts
    (splitCommand, exec and execSequence), followed by the properties of
    the design document that concern them and by further properties read
    off the code.

    Modelling conventions.
    - A JavaScript number is either [NaN] or an exact integer; this is
      faithful for every magnitude up to [MAX_SAFE_INTEGER] = 2^53 - 1, and
      the statements about values computed from a header carry that bound.
    - Header values are byte strings, so [string] (a list of 8-bit
      characters) represents them exactly. Command lines are modelled as
      such strings too, which covers every command line whose characters
      have a code below 256.
    - A JavaScript object is an association list in property enumeration
      order: two objects with the same fields inserted in a different order
      are different lists.
    - The handlers run in a small state-and-exception monad over a [World]
      that holds the key-value store, the songs directory, the number of
      upstream calls made so far, a log of the store and file operations
      performed, and the response under construction.
    - What the runtime or a library decides (the digest of object_hash, the
      URL test of zod, path joining, the upstream service, how many bytes a
      single read delivers, how far a file can be sought, which values the
      store takes) is a field of the [Platform] record; the theorems hold
      for every platform.
    - A handler that throws is answered by the framework: the headers set
      so far are deleted and the body is the text of the status, 404 for a
      NotFound error of the runtime and 500 otherwise. *)

From Stdlib Require Import ZArith Lia List String Ascii Strings.Byte DecimalString Permutation.
From Stdlib Require DecimalZ.
From stdpp Require Import base option list strings gmap.
Import ListNotations.

Local Open Scope string_scope.
Local Open Scope Z_scope.

(** ** JavaScript values *)

Module JS.

(** Numbers as the handlers use them: NaN or an integer. The arithmetic
    below is that of the integers, which is the arithmetic of numbers as
    long as the operands and the result stay within the safe range. *)
Inductive number : Type :=
| NaN
| Num (z : Z).

(** [Number.MAX_SAFE_INTEGER]. *)
Definition MAX_SAFE_INTEGER : Z := 2 ^ 53 - 1.

Definition num_add (a b : number) : number :=
  match a, b with
  | Num x, Num y => Num (x + y)
  | _, _ => NaN
  end.

Definition num_sub (a b : number) : number :=
  match a, b with
  | Num x, Num y => Num (x - y)
  | _, _ => NaN
  end.

(** [a > b]; any comparison with NaN is false. *)
Definition num_gt (a b : number) : bool :=
  match a, b with
  | Num x, Num y => y <? x
  | _, _ => false
  end.

(** [a === b]; NaN is not equal to anything. *)
Definition num_strict_eq (a b : number) : bool :=
  match a, b with
  | Num x, Num y => x =? y
  | _, _ => false
  end.

(** [n.toString()] and template interpolation of a number. *)
Definition number_to_string (n : number) : string :=
  match n with
  | NaN => "NaN"
  | Num z => NilZero.string_of_int (Z.to_int z)
  end.

(** JSON values, the payloads and request bodies. *)
#[local] Unset Elimination Schemes.
Inductive Json : Type :=
| JNull
| JBool (b : bool)
| JNum (n : Z)
| JStr (s : string)
| JArr (items : list Json)
| JObj (fields : list (string * Json)).
#[local] Set Elimination Schemes.

(** ToBoolean on a JSON value. *)
Definition truthy (v : Json) : bool :=
  match v with
  | JNull => false
  | JBool b => b
  | JNum n => negb (n =? 0)
  | JStr s => negb (String.eqb s "")
  | JArr _ => true
  | JObj _ => true
  end.

(** White space that [parseInt] skips, within a byte string. *)
Definition is_js_space (c : ascii) : bool :=
  let n := N_of_ascii c in
  ((9 <=? n) && (n <=? 13) || (n =? 32) || (n =? 160))%N.

Fixpoint skip_space (s : string) : string :=
  match s with
  | String c s' => if is_js_space c then skip_space s' else s
  | EmptyString => s
  end.

Definition digit_val (c : ascii) : option Z :=
  let n := N_of_ascii c in
  if ((48 <=? n) && (n <=? 57))%N then Some (Z.of_N n - 48) else None.

(** The longest prefix of decimal digits, as a value; [None] when the
    string does not start with a digit. *)
Fixpoint read_digits (s : string) (acc : option Z) : option Z :=
  match s with
  | String c s' =>
      match digit_val c with
      | Some d => read_digits s' (Some (10 * default 0 acc + d))
      | None => acc
      end
  | EmptyString => acc
  end.

(** [parseInt(s, 10)]. *)
Definition parseInt10 (s : string) : number :=
  let s1 := skip_space s in
  let '(sign, s2) :=
    match s1 with
    | String c r =>
        if Ascii.eqb c "-" then (-1, r)
        else if Ascii.eqb c "+" then (1, r)
        else (1, s1)
    | EmptyString => (1, s1)
    end in
  match read_digits s2 None with
  | Some v => Num (sign * v)
  | None => NaN
  end.

Fixpoint drop_chars (n : nat) (s : string) : string :=
  match n, s with
  | S n', String _ s' => drop_chars n' s'
  | _, _ => s
  end.

(** [s.replace(/pat/, "")] for a pattern without metacharacters: the first
    occurrence of [pat] is removed. *)
Fixpoint remove_first (pat s : string) : string :=
  if String.prefix pat s then drop_chars (String.length pat) s
  else match s with
       | String c s' => String c (remove_first pat s')
       | EmptyString => EmptyString
       end.

(** [s.split(sep)] for a one-character separator. *)
Fixpoint split_on (sep : ascii) (s : string) : list string :=
  match s with
  | EmptyString => [EmptyString]
  | String c s' =>
      if Ascii.eqb c sep then EmptyString :: split_on sep s'
      else match split_on sep s' with
           | p :: ps => String c p :: ps
           | [] => [String c EmptyString]
           end
  end.

(** Truthiness of an optional string (null, undefined or a string). *)
Definition truthy_str (o : option string) : bool :=
  match o with
  | Some s => negb (String.eqb s "")
  | None => false
  end.

(** [new Uint8Array(n)]: a zero-filled buffer; NaN converts to length 0
    and a negative length throws. *)
Definition new_Uint8Array (n : number) : option (list byte) :=
  match n with
  | NaN => Some []
  | Num z => if z <? 0 then None else Some (replicate (Z.to_nat z) x00)
  end.

(** Own enumerable properties copied by object spread [{...v}]. *)
Fixpoint index_from (i : nat) (l : list Json) : list (string * Json) :=
  match l with
  | [] => []
  | x :: l' => (NilZero.string_of_uint (Nat.to_uint i), x) :: index_from (S i) l'
  end.

Fixpoint chars_of (s : string) : list Json :=
  match s with
  | EmptyString => []
  | String c s' => JStr (String c EmptyString) :: chars_of s'
  end.

Definition spread (v : Json) : list (string * Json) :=
  match v with
  | JObj fs => fs
  | JArr l => index_from 0 l
  | JStr s => index_from 0 (chars_of s)
  | _ => []
  end.

(** Assignment of a property: an existing key keeps its place. *)
Fixpoint set_field (k : string) (v : Json) (fs : list (string * Json))
  : list (string * Json) :=
  match fs with
  | [] => [(k, v)]
  | (k', v') :: fs' =>
      if String.eqb k k' then (k, v) :: fs' else (k', v') :: set_field k v fs'
  end.

Fixpoint get_field (k : string) (fs : list (string * Json)) : option Json :=
  match fs with
  | [] => None
  | (k', v') :: fs' => if String.eqb k k' then Some v' else get_field k fs'
  end.

End JS.
Export JS.

(** ** The fingerprint of a request body *)

Module Fingerprint.

(** Modelled from the spec: the key sort that canonicalises a mapping, as
    insertion of a field into a key-sorted field list; keys are compared
    as strings, character code by character code. *)
Fixpoint insert_field (f : string * Json) (fs : list (string * Json))
  : list (string * Json) :=
  match fs with
  | [] => [f]
  | g :: fs' =>
      if String.leb (fst f) (fst g) then f :: g :: fs'
      else g :: insert_field f fs'
  end.

(** Modelled from the spec: the fields of a mapping in sorted key order. *)
Definition sort_fields (fs : list (string * Json)) : list (string * Json) :=
  foldr insert_field [] fs.

(** Modelled from the spec: the canonical form that the fingerprint
    function of the imported object_hash module (its source is not part of
    the repository) computes before hashing; the design document requires
    that mapping key order is canonicalised by sorting the keys, at every
    level of the value. *)
Fixpoint canon (v : Json) : Json :=
  match v with
  | JArr l => JArr (map canon l)
  | JObj fs =>
      JObj (sort_fields
              (map (fun f => match f with (k, x) => (k, canon x) end) fs))
  | _ => v
  end.

(** Modelled from the spec: the fingerprint function [hash] of the imported
    object_hash module, a pure and total digest of the canonical form of
    its argument; the digest itself is left to the platform. *)
Definition object_hash (digest : Json -> string) (v : Json) : string :=
  digest (canon v).

End Fingerprint.
Export Fingerprint.

(** ** The server *)

Module Server.

(** *** Validation issues of the request schema *)

Inductive IssueCode : Type :=
| invalid_type
| invalid_enum_value
| invalid_string.

Record Issue : Type := MkIssue { issue_path : list string; issue_code : IssueCode }.

(** *** What the runtime and the libraries decide *)

Record Platform : Type := MkPlatform {
  (** the digest object_hash applies to a canonical value *)
  digest : Json -> string;
  (** the URL test of [z.string().url()] *)
  is_url : string -> bool;
  (** [join] of std/path *)
  join : string -> string -> string;
  (** the songs directory, derived from the module's location *)
  songsDir : string;
  (** the two entries of the environment configuration *)
  RAPIDAPI_KEY : string;
  RAPIDAPI_HOST : string;
  (** the upstream service: the answer to the n-th request ever sent,
      [None] when the request fails *)
  upstream : nat -> Json -> option Json;
  (** how many bytes one read call delivers at most, given the position
      and the size of the buffer *)
  read_quota : nat -> nat -> nat;
  (** the largest position the file system lets a file be sought to *)
  seek_limit : Z;
  (** whether the store takes a value: [kv.set] rejects a value whose
      serialised form exceeds the size limit of the store (64 KiB) *)
  kv_accepts : Json -> bool
}.

(** *** Responses *)

Inductive Body : Type :=
| BodyJson (v : Json)
| BodyText (s : string)
| BodyBytes (b : list byte)
| BodyIssues (l : list Issue)
| BodyNull.

Record Response : Type := MkResponse {
  status : option nat;
  headers : gmap string string;
  rtype : option string;
  body : option Body
}.

Definition fresh_response : Response :=
  MkResponse None ∅ None None.

(** The status the framework sends: the one assigned, else 200 when a body
    was assigned, 204 when the body assigned was null, and 404 when none
    was assigned. *)
Definition response_status (r : Response) : nat :=
  match status r with
  | Some s => s
  | None =>
      match body r with
      | Some BodyNull => 204%nat
      | Some _ => 200%nat
      | None => 404%nat
      end
  end.

(** Assigning a JSON value as body. *)
Definition json_body (v : Json) : option Body :=
  match v with
  | JNull => Some BodyNull
  | _ => Some (BodyJson v)
  end.

(** *** The world the handlers act on *)

Inductive SeekMode : Type := SeekStart | SeekCurrent | SeekEnd.

Inductive Event : Type :=
| EvKvGet (k : string)
| EvKvSet (k : string) (v : Json)
| EvDispatch (n : nat) (req : Json)
| EvExists (p : string)
| EvStat (p : string)
| EvReadFile (p : string)
| EvOpen (p : string)
| EvSeek (off : number) (mode : SeekMode)
| EvRead (len : nat)
| EvClose
| EvClearDownloads.

Record World : Type := MkWorld {
  kv : gmap string Json;
  songs : gmap string (list byte);
  calls : nat;
  trace : list Event;
  resp : Response
}.

Inductive Exn : Type :=
| ZodError (issues : list Issue)
| TypeError
| UpstreamFailure
| ArrayLengthError
| IOError
| NotFound        (* Deno.errors.NotFound *)
| ArgumentError.  (* the error of a library called with undefined *)

Inductive Outcome (A : Type) : Type :=
| Ok (a : A)
| Throw (e : Exn).
Arguments Ok {A} a.
Arguments Throw {A} e.

Definition M (A : Type) : Type := World -> Outcome A * World.

Definition ret {A} (a : A) : M A := fun w => (Ok a, w).

Definition bind {A B} (c : M A) (k : A -> M B) : M B :=
  fun w =>
    match c w with
    | (Ok a, w') => k a w'
    | (Throw e, w') => (Throw e, w')
    end.

Definition throw {A} (e : Exn) : M A := fun w => (Throw e, w).

Notation "'let*' x ':=' c 'in' k" := (bind c (fun x => k))
  (at level 10, x name, c at level 100, k at level 200).
Notation "c ';;' k" := (bind c (fun _ => k))
  (at level 100, k at level 200, right associativity).

Definition emit (e : Event) : M unit :=
  fun w => (Ok tt, MkWorld (kv w) (songs w) (calls w) (trace w ++ [e]) (resp w)).

Definition update_response (f : Response -> Response) : M unit :=
  fun w => (Ok tt, MkWorld (kv w) (songs w) (calls w) (trace w) (f (resp w))).

Definition set_header (name value : string) : M unit :=
  update_response (fun r =>
    MkResponse (status r) (<[name := value]> (headers r)) (rtype r) (body r)).

Definition set_status (s : nat) : M unit :=
  update_response (fun r => MkResponse (Some s) (headers r) (rtype r) (body r)).

Definition set_type (t : string) : M unit :=
  update_response (fun r => MkResponse (status r) (headers r) (Some t) (body r)).

Definition set_body (b : option Body) : M unit :=
  update_response (fun r => MkResponse (status r) (headers r) (rtype r) b).

(** [kv.get([k])]: the stored value, null when there is none. *)
Definition kv_get (k : string) : M Json :=
  emit (EvKvGet k) ;;
  fun w => (Ok (default JNull (kv w !! k)), w).

(** [exists(path)]. *)
Definition path_exists (path : string) : M bool :=
  emit (EvExists path) ;;
  fun w => (Ok (bool_decide (is_Some (songs w !! path))), w).

(** [(await Deno.stat(path)).size]. *)
Definition stat_size (path : string) : M Z :=
  emit (EvStat path) ;;
  fun w => match songs w !! path with
           | Some f => (Ok (Z.of_nat (length f)), w)
           | None => (Throw NotFound, w)
           end.

(** [Deno.readFile(path)]. *)
Definition readFile (path : string) : M (list byte) :=
  emit (EvReadFile path) ;;
  fun w => match songs w !! path with
           | Some f => (Ok f, w)
           | None => (Throw NotFound, w)
           end.

(** An open file: its content and the position of the next read. *)
Record File : Type := MkFile { content : list byte; position : Z }.

(** [Deno.open(path, {read: true})]: the position starts at 0. *)
Definition open (path : string) : M File :=
  emit (EvOpen path) ;;
  fun w => match songs w !! path with
           | Some f => (Ok (MkFile f 0), w)
           | None => (Throw NotFound, w)
           end.

Definition close : M unit := emit EvClose.

Section Handlers.

Variable P : Platform.

(** [kv.set([k], v)]: the store takes the value or rejects it. *)
Definition kv_set (k : string) (v : Json) : M unit :=
  emit (EvKvSet k v) ;;
  if kv_accepts P v then
    fun w => (Ok tt, MkWorld (<[k := v]> (kv w)) (songs w) (calls w) (trace w) (resp w))
  else throw TypeError.

(** [Deno.seek(rid, offset, whence)]: the offset is converted to a 64-bit
    integer, which makes NaN 0; the new position is the offset taken from
    the start, from the current position or from the end of the file; a
    negative result is rejected, and so is a position past the limit of
    the file system. A position within the file is never past that
    limit. *)
Definition seek_target (f : File) (offset : number) (whence : SeekMode)
  : option Z :=
  let z := match offset with Num z => z | NaN => 0 end in
  let p := match whence with
           | SeekStart => z
           | SeekCurrent => position f + z
           | SeekEnd => Z.of_nat (length (content f)) + z
           end in
  if (0 <=? p)
     && ((p <=? Z.of_nat (length (content f))) || (p <=? seek_limit P))
  then Some p else None.

Definition seek (f : File) (offset : number) (whence : SeekMode) : M File :=
  emit (EvSeek offset whence) ;;
  match seek_target f offset whence with
  | None => throw IOError
  | Some p => ret (MkFile (content f) p)
  end.

(** The bytes a buffer holds after one [file.read(buffer)]: the read
    delivers at most as many bytes as the buffer takes, as the file has
    left from the position on, and as the platform's quota allows; the rest
    of the buffer keeps what it held. *)
Definition fill (f : File) (buffer : list byte) : list byte :=
  let n := length buffer in
  let avail := take n (drop (Z.to_nat (position f)) (content f)) in
  let k := Nat.min (read_quota P (Z.to_nat (position f)) n) (length avail) in
  take k avail ++ drop k buffer.

Definition read (f : File) (buffer : list byte) : M (list byte) :=
  emit (EvRead (length buffer)) ;;
  ret (fill f buffer).

(** [axiod.request(req)]: one more call to the upstream service. *)
Definition axiod_request (req : Json) : M Json :=
  fun w =>
    let n := calls w in
    let w' := MkWorld (kv w) (songs w) (S n) (trace w ++ [EvDispatch n req]) (resp w) in
    match upstream P n req with
    | Some v => (Ok v, w')
    | None => (Throw UpstreamFailure, w')
    end.

(** [hash(data)]. *)
Definition hash (v : Json) : string := object_hash (digest P) v.

(** The schema [cacheRequestSchema]: an object whose [method] is one of
    GET and POST and whose [url] is a string that is a URL. The list of
    issues is empty exactly when the value conforms. *)
Definition method_issues (fs : list (string * Json)) : list Issue :=
  match get_field "method" fs with
  | Some (JStr m) =>
      if String.eqb m "GET" || String.eqb m "POST" then []
      else [MkIssue ["method"] invalid_enum_value]
  | _ => [MkIssue ["method"] invalid_type]
  end.

Definition url_issues (fs : list (string * Json)) : list Issue :=
  match get_field "url" fs with
  | Some (JStr u) =>
      if is_url P u then [] else [MkIssue ["url"] invalid_string]
  | _ => [MkIssue ["url"] invalid_type]
  end.

Definition cacheRequestSchema (data : Json) : list Issue :=
  match data with
  | JObj fs => method_issues fs ++ url_issues fs
  | _ => [MkIssue [] invalid_type]
  end.

(** [safeParseAsync] never throws: it returns the issues as a value. *)
Definition safeParseAsync (data : Json) : M (list Issue) :=
  ret (cacheRequestSchema data).

(** Reading [data.url] for the log line: reading a property of null
    throws. (Writing the url into the log line is taken to succeed, as it
    does for every url that is a string, a number, a boolean or null.) *)
Definition read_url (data : Json) : M unit :=
  match data with
  | JNull => throw TypeError
  | _ => ret tt
  end.

(** The request sent upstream: [{...data, headers: {...}}]. *)
Definition upstream_request (data : Json) : Json :=
  JObj (set_field "headers"
          (JObj [("X-RapidAPI-Key", JStr (RAPIDAPI_KEY P));
                 ("X-RapidAPI-Host", JStr (RAPIDAPI_HOST P))])
          (spread data)).

(** The handler of POST /cache-request (lib/exec.ts, lines 169-194). *)
Definition cache_request (data : Json) : M unit :=
  safeParseAsync data ;;
  let requestHash := hash data in
  let* cachedResponse := kv_get requestHash in
  if truthy cachedResponse then
    read_url data ;;
    set_body (json_body cachedResponse)
  else
    read_url data ;;
    let* newResponse := axiod_request (upstream_request data) in
    kv_set requestHash newResponse ;;
    set_body (json_body newResponse).

Definition maxChunk : Z := 1024 * 1024.

(** The start and the end of the requested range, as the handler of
    GET /songs/:id computes them from the header and the size of the song
    (lines 209-216);
    the first component of the result is the end before clamping. *)
Definition range_bounds (range : string) (songSize : Z)
  : number * number * number :=
  let parts := split_on "-" (remove_first "bytes=" range) in
  let first := default "" (parts !! 0%nat) in
  let second := parts !! 1%nat in
  let start := parseInt10 first in
  let end0 := if truthy_str second then parseInt10 (default "" second)
              else Num (songSize - 1) in
  let end_ :=
    if num_gt (num_add (num_sub end0 start) (Num 1)) (Num maxChunk)
    then num_sub (num_add start (Num maxChunk)) (Num 1)
    else end0 in
  (end0, start, end_).

Definition parse_range (range : string) (songSize : Z) : number * number :=
  let '(_, start, end_) := range_bounds range songSize in (start, end_).

Definition seek_mode (start end_ : number) (songSize : Z) : SeekMode :=
  if num_strict_eq start (Num 0) then SeekStart
  else if num_strict_eq end_ (Num (songSize - 1)) then SeekEnd
  else SeekCurrent.

(** The handler of GET /songs/:id (lib/exec.ts, lines 196-250). *)
Definition get_song (songName : string) (range : option string) : M unit :=
  let songPath := join P (songsDir P) songName in
  let* found := path_exists songPath in
  if found then
    let* songSize := stat_size songPath in
    if negb (truthy_str range) then
      set_header "Content-Length" (number_to_string (Num songSize)) ;;
      set_header "Content-Type" "audio/mpeg" ;;
      let* bytes := readFile songPath in
      set_body (Some (BodyBytes bytes))
    else
      let '(start, end_) := parse_range (default "" range) songSize in
      let len := num_add (num_sub end_ start) (Num 1) in
      set_header "Content-Range"
        ("bytes " +:+ number_to_string start +:+ "-" +:+ number_to_string end_
           +:+ "/" +:+ number_to_string (Num songSize)) ;;
      set_header "Accept-Ranges" "bytes" ;;
      set_header "Content-Length" (number_to_string len) ;;
      let whence := seek_mode start end_ songSize in
      let* file := open songPath in
      let* file := seek file start whence in
      match new_Uint8Array len with
      | None => throw ArrayLengthError
      | Some buffer =>
          let* content := read file buffer in
          close ;;
          set_type "audio/mpeg" ;;
          set_status 206 ;;
          set_body (Some (BodyBytes content))
      end
  else
    set_status 404 ;;
    set_body (Some (BodyText "Song not found")).

(** The application's error listener (lib/exec.ts, lines 304-323). *)
Definition on_error (e : Exn) : M unit :=
  emit EvClearDownloads ;;
  match e with
  | ZodError issues =>
      set_status 400 ;;
      set_body (Some (BodyIssues issues))
  | _ =>
      set_body (Some (BodyText "Internal Server Error")) ;;
      set_status 500
  end.

(** The text of a status. *)
Definition status_text (s : nat) : string :=
  if Nat.eqb s 404 then "Not Found" else "Internal Server Error".

(** The answer the framework sends for a handler that throws: the headers
    the handler had set are deleted, the status is 404 for a NotFound
    error of the runtime and 500 for every other error, and the body is the
    text of the status. *)
Definition error_response (e : Exn) : Response :=
  let s := match e with NotFound => 404%nat | _ => 500%nat end in
  MkResponse (Some s) ∅ (Some "text") (Some (BodyText (status_text s))).

(** One request: the handler runs on a fresh response and log. What it
    throws reaches the error listener, which first awaits the removal of
    the download directory; by then the framework has sent its own answer
    to the error, so that what the listener writes afterwards is not part
    of the answer. *)
Definition serve (h : M unit) (w : World) : World :=
  let w0 := MkWorld (kv w) (songs w) (calls w) [] fresh_response in
  match h w0 with
  | (Ok _, w1) => w1
  | (Throw e, w1) =>
      let w2 := snd (on_error e w1) in
      MkWorld (kv w2) (songs w2) (calls w2) (trace w2) (error_response e)
  end.

Definition post_cache_request (data : Json) (w : World) : World :=
  serve (cache_request data) w.

Definition get_songs_id (songName : string) (range : option string) (w : World)
  : World :=
  serve (get_song songName range) w.

End Handlers.

End Server.
Export Server.

(** ** Sample data *)

Module Sample.

(** A digest that writes out the string fields of a canonical object. *)
Definition show_field (f : string * Json) : string :=
  match f with
  | (k, JStr s) => k +:+ "=" +:+ s
  | (k, _) => k
  end.

Definition show (v : Json) : string :=
  match v with
  | JObj fs => String.concat ";" (map show_field fs)
  | _ => "value"
  end.

(** A store that takes every value but a string of more than 65536
    characters. *)
Definition fits (v : Json) : bool :=
  match v with
  | JStr s => (N.of_nat (String.length s) <=? 65536)%N
  | _ => true
  end.

(** A platform whose upstream service answers the n-th request with the
    number n (a different payload on each call), whose reads are never
    short and whose file system lets a file be sought up to 2^43. *)
Definition platform : Platform :=
  MkPlatform show (fun u => String.prefix "https://" u)
    (fun d n => d +:+ "/" +:+ n) "data/songs" "key" "host"
    (fun n _ => Some (JNum (Z.of_nat n))) (fun _ n => n) (2 ^ 43) fits.


(** The same platform with reads that deliver one byte at a time. *)
Definition trickle : Platform :=
  MkPlatform show (fun u => String.prefix "https://" u)
    (fun d n => d +:+ "/" +:+ n) "data/songs" "key" "host"
    (fun n _ => Some (JNum (Z.of_nat n))) (fun _ _ => 1%nat) (2 ^ 43) fits.

(** The same platform with a store that takes no string. *)
Definition cramped : Platform :=
  MkPlatform show (fun u => String.prefix "https://" u)
    (fun d n => d +:+ "/" +:+ n) "data/songs" "key" "host"
    (fun n _ => Some (JStr "payload")) (fun _ n => n) (2 ^ 43)
    (fun v => match v with JStr _ => false | _ => true end).

Definition song : list byte := [x01; x02; x03; x04].

(** An empty store and one song of four bytes. *)
Definition world : World :=
  MkWorld ∅ {[ "data/songs/a.mp3" := song ]} 0 [] fresh_response.

Definition descriptor : Json :=
  JObj [("method", JStr "GET"); ("url", JStr "https://api.example/x")].

Definition descriptor_swapped : Json :=
  JObj [("url", JStr "https://api.example/x"); ("method", JStr "GET")].

(** A body that the schema rejects: the method is not allowed and the url
    is not a URL. *)
Definition bad_request : Json :=
  JObj [("method", JStr "DELETE"); ("url", JStr "nope")].

(** The world after one request for [descriptor], and after two. *)
Definition once : World := post_cache_request platform descriptor world.
Definition twice : World := post_cache_request platform descriptor once.

(** A world in which the upstream service has been called once before. *)
Definition warm : World :=
  MkWorld ∅ {[ "data/songs/a.mp3" := song ]} 1 [] fresh_response.

End Sample.

(** ** Running commands (lib/exec.ts) *)

Module Exec.

(** The double quote character. *)
Definition quote : ascii := ascii_of_nat 34.

(** A character the word alternative of the pattern accepts: neither
    white space nor a double quote. *)
Definition word_char (c : ascii) : bool :=
  negb (is_js_space c) && negb (Ascii.eqb c quote).

(** The longest prefix made of word characters. *)
Fixpoint word_prefix (s : string) : string :=
  match s with
  | String c s' => if word_char c then String c (word_prefix s') else EmptyString
  | EmptyString => EmptyString
  end.

(** The characters before the first double quote; [None] when the string
    holds no double quote. *)
Fixpoint until_quote (s : string) : option string :=
  match s with
  | String c s' =>
      if Ascii.eqb c quote then Some EmptyString
      else option_map (String c) (until_quote s')
  | EmptyString => None
  end.

(** One attempt to match the pattern of [splitCommand] at the start of
    [s]: the text pushed for the match and the number of characters the
    match spans. A word is pushed as it is; a quoted text is pushed without
    its quotes, unless it is empty, and then the two quotes are pushed. *)
Definition match_here (s : string) : option (string * nat) :=
  match s with
  | String c s' =>
      if word_char c then
        Some (word_prefix s, String.length (word_prefix s))
      else if Ascii.eqb c quote then
        match until_quote s' with
        | Some inner =>
            Some (if String.eqb inner EmptyString
                  then String quote (String quote EmptyString)
                  else inner,
                  (String.length inner + 2)%nat)
        | None => None
        end
      else None
  | EmptyString => None
  end.

(** The loop of [splitCommand]: every call of the pattern's exec resumes
    behind the previous match; where nothing matches, the search moves on
    by one character. [skip] counts the characters of the current match
    that are still to be passed over. *)
Fixpoint scan (skip : nat) (s : string) : list string :=
  match s with
  | String c s' =>
      match skip with
      | S k => scan k s'
      | O =>
          match match_here s with
          | Some (tok, n) => tok :: scan (n - 1) s'
          | None => scan 0 s'
          end
      end
  | EmptyString => []
  end.

Definition splitCommand (command : string) : list string := scan 0 command.

Inductive OutputMode : Type :=
| None_   (* 0: no output, just run the command *)
| StdOut  (* 1: dump the output to stdout *)
| Capture (* 2: capture the output and return it *)
| Tee.    (* 3: both dump and capture the output *)

Record IExecStatus : Type := MkStatus { code : Z; success : bool }.

(** The output is a JavaScript string, a list of UTF-16 code units. *)
Record IExecResponse : Type := MkExecResponse {
  status : IExecStatus;
  output : list N
}.

(** Every option may be left out. *)
Record IOptions : Type := MkOptions {
  opt_output : option OutputMode;
  verbose : option bool;
  continueOnError : option bool
}.

(** The default options of [exec] and of [execSequence]. *)
Definition exec_defaults : IOptions :=
  MkOptions (Some StdOut) (Some false) None.

Definition execSequence_defaults : IOptions :=
  MkOptions (Some StdOut) (Some false) (Some false).

(** [options.output != OutputMode.None]: an option left out differs from
    every mode. *)
Definition reads_output (o : IOptions) : bool :=
  match opt_output o with
  | Some None_ => false
  | _ => true
  end.

(** [output == Capture || output == Tee]. *)
Definition captures (o : IOptions) : bool :=
  match opt_output o with
  | Some Capture | Some Tee => true
  | _ => false
  end.

(** [output == StdOut || output == Tee]. *)
Definition dumps (o : IOptions) : bool :=
  match opt_output o with
  | Some StdOut | Some Tee => true
  | _ => false
  end.

(** [options.continueOnError == false]: an option left out is not equal
    to false. *)
Definition stops_on_error (o : IOptions) : bool :=
  match continueOnError o with
  | Some false => true
  | _ => false
  end.

(** [decoder.decode(buff)] on a buffer of one byte: a byte below 128 is
    the character of that code, any other byte is not valid UTF-8 by
    itself and decodes to the replacement character. *)
Definition decode_byte (b : byte) : list N :=
  if (Byte.to_N b <? 128)%N then [Byte.to_N b] else [65533%N].

(** White space and line terminators, as [trim] removes them. *)
Definition is_trim_space (u : N) : bool :=
  ((9 <=? u) && (u <=? 13) || (u =? 32) || (u =? 160) || (u =? 5760)
   || (8192 <=? u) && (u <=? 8202) || (u =? 8232) || (u =? 8233)
   || (u =? 8239) || (u =? 8287) || (u =? 12288) || (u =? 65279))%N.

Fixpoint trim_start (s : list N) : list N :=
  match s with
  | u :: s' => if is_trim_space u then trim_start s' else s
  | [] => []
  end.

(** [s.trim()]. *)
Definition trim (s : list N) : list N :=
  rev (trim_start (rev (trim_start s))).

(** A child process as [exec] sees it: the bytes it writes to its standard
    output before it ends, and its exit status. *)
Record Process : Type := MkProcess {
  proc_stdout : list byte;
  proc_code : Z;
  proc_success : bool
}.

(** The machine: how many processes were started, and the bytes written
    to the standard output of the server by [Deno.stdout.write]. *)
Record Machine : Type := MkMachine {
  started : nat;
  written : list byte
}.

Section Run.

(** [Deno.run]: the n-th process ever started with the given argument
    vector, [None] when it cannot be started. *)
Variable spawn : nat -> list string -> option Process.

(** The read loop of [exec]: one byte is read at a time until the end of
    the process output; each byte is appended to the response when the
    output is captured and written to the standard output when it is
    dumped. *)
Fixpoint pump (o : IOptions) (bytes : list byte) (response : list N)
    (out : list byte) : list N * list byte :=
  match bytes with
  | b :: rest =>
      pump o rest
        (if captures o then (response ++ decode_byte b)%list else response)
        (if dumps o then (out ++ [b])%list else out)
  | [] => (response, out)
  end.

(** [exec(command, options)]. *)
Definition exec (command : string) (options : IOptions) (m : Machine)
  : Outcome IExecResponse * Machine :=
  let splits := splitCommand command in
  match spawn (started m) splits with
  | None => (Throw IOError, m)
  | Some p =>
      let '(response, out) :=
        if reads_output options
        then pump options (proc_stdout p) [] (written m)
        else ([], written m) in
      (Ok (MkExecResponse (MkStatus (proc_code p) (proc_success p))
             (trim response)),
       MkMachine (S (started m)) out)
  end.

(** The loop of [execSequence]: the commands run in order; the loop ends
    behind a command that exits with a code other than 0 when
    [continueOnError] is false. *)
Fixpoint run_sequence (commands : list string) (options : IOptions)
    (results : list IExecResponse) (m : Machine)
  : Outcome (list IExecResponse) * Machine :=
  match commands with
  | c :: rest =>
      match exec c options m with
      | (Ok result, m') =>
          if stops_on_error options && negb (code (status result) =? 0)
          then (Ok (results ++ [result])%list, m')
          else run_sequence rest options (results ++ [result])%list m'
      | (Throw e, m') => (Throw e, m')
      end
  | [] => (Ok results, m)
  end.

(** [execSequence(commands, options)]. *)
Definition execSequence (commands : list string) (options : IOptions)
    (m : Machine) : Outcome (list IExecResponse) * Machine :=
  run_sequence commands options [] m.

End Run.

End Exec.

(** ** Downloading a song (POST /music-url) *)

Module Download.

(** An entry as [walk] yields it, with the bytes of the file it names. *)
Record WalkEntry : Type := MkEntry {
  path : string;
  name : string;
  isFile : bool;
  data : list byte
}.

(** What the runtime decides for this route, beside the platform of the
    other two routes. The downloader is a child process; it is taken to
    act on the download directory only. *)
Record Tools : Type := MkTools {
  base : Platform;
  (** the download directory, derived from the module's location *)
  donwloadDir : string;
  (** [Deno.run], as in [Exec] *)
  spawn : nat -> list string -> option Exec.Process;
  (** whether the error of a process that cannot be started is the
      NotFound error of the runtime, as it is for a missing program *)
  not_found : nat -> list string -> bool;
  (** what [walk] finds in the download directory once the n-th process,
      started with the given arguments, has ended, given what was there
      before; [None] when the directory does not exist *)
  after_run : nat -> list string -> option (list WalkEntry)
              -> option (list WalkEntry)
}.

(** The state of the server: the world of the other routes, the download
    directory in the order [walk] lists it, and the machine of [Exec]. *)
Record Host : Type := MkHost {
  world : World;
  download : option (list WalkEntry);
  machine : Exec.Machine
}.

Definition HM (A : Type) : Type := Host -> Outcome A * Host.

Definition hret {A} (a : A) : HM A := fun h => (Ok a, h).

Definition hbind {A B} (c : HM A) (k : A -> HM B) : HM B :=
  fun h =>
    match c h with
    | (Ok a, h') => k a h'
    | (Throw e, h') => (Throw e, h')
    end.

Definition hthrow {A} (e : Exn) : HM A := fun h => (Throw e, h).

(** A step of the other routes, run on the world of the host. *)
Definition lift {A} (c : M A) : HM A :=
  fun h =>
    match c (world h) with
    | (o, w') => (o, MkHost w' (download h) (machine h))
    end.

Notation "'let!' x ':=' c 'in' k" := (hbind c (fun x => k))
  (at level 10, x name, c at level 100, k at level 200).
Notation "c ';;;' k" := (hbind c (fun _ => k))
  (at level 100, k at level 200, right associativity).

(** The text a template literal inserts for a JSON value. *)
Fixpoint to_text (v : Json) : string :=
  match v with
  | JNull => "null"
  | JBool true => "true"
  | JBool false => "false"
  | JNum n => number_to_string (Num n)
  | JStr s => s
  | JArr l =>
      String.concat ","
        (map (fun x => match x with JNull => EmptyString | _ => to_text x end) l)
  | JObj _ => "[object Object]"
  end.

(** Whether the text of a value can be formed: an object with a property
    of its own named toString has none, since a property read from JSON is
    never a function; an array has one when its elements have. *)
Fixpoint printable (v : Json) : bool :=
  match v with
  | JArr l => forallb printable l
  | JObj fs =>
      match get_field "toString" fs with
      | Some _ => false
      | None => true
      end
  | _ => true
  end.

(** [s.endsWith(suffix)]. *)
Definition ends_with (suffix s : string) : bool :=
  (String.length suffix <=? String.length s)%nat
  && String.eqb
       (substring (String.length s - String.length suffix)
          (String.length suffix) s)
       suffix.

(** The loop over the download directory: the first entry that is a file
    whose name ends with ".mp3"; nothing when the directory does not
    exist. *)
Definition find_mp3 (d : option (list WalkEntry)) : option WalkEntry :=
  match d with
  | Some entries =>
      List.find (fun e => isFile e && ends_with ".mp3" (name e)) entries
  | None => None
  end.

(** [clearDownloadsFolder]: [walk] lists the directory itself first, and
    removing that entry removes the directory with all it holds; whatever
    fails afterwards is ignored. *)
Definition clearDownloadsFolder : HM unit :=
  fun h =>
    (Ok tt, MkHost (snd (emit EvClearDownloads (world h))) None (machine h)).

Section Route.

Variable T : Tools.

(** The [url] property of the request body: [None] stands for
    [undefined]. *)
Definition body_url (body : Json) : option Json :=
  match body with
  | JObj fs => get_field "url" fs
  | _ => None
  end.

Definition url_text (url : option Json) : string :=
  match url with
  | Some v => to_text v
  | None => "undefined"
  end.

(** The file name of the song of a url, and its path in the songs
    directory. *)
Definition songFilename (url : Json) : string :=
  hash (base T) url +:+ ".mp3".

Definition songPath (url : Json) : string :=
  join (base T) (songsDir (base T)) (songFilename url).

(** The command line of the downloader. *)
Definition download_command (url : option Json) : string :=
  "spotifydl --o " +:+ donwloadDir T +:+ " " +:+ url_text url.

(** [exec(command)] with the default options, and what the process leaves
    in the download directory. When the process cannot be started, the
    error is the one [Deno.run] throws. *)
Definition run_downloader (command : string) : HM Exec.IExecResponse :=
  fun h =>
    match Exec.exec (spawn T) command Exec.exec_defaults (machine h) with
    | (Ok r, m') =>
        (Ok r,
         MkHost (world h)
           (after_run T (Exec.started (machine h)) (Exec.splitCommand command)
              (download h))
           m')
    | (Throw e, m') =>
        (Throw (if not_found T (Exec.started (machine h))
                     (Exec.splitCommand command)
                then NotFound else e),
         MkHost (world h) (download h) m')
    end.

(** A log line that holds the url: forming the text of the url may
    throw. *)
Definition log_url (url : Json) : HM unit :=
  if printable url then hret tt else hthrow TypeError.

(** [Deno.rename(filePath, dest)]: the file leaves the download directory
    and becomes the song at [dest]. *)
Definition rename (e : WalkEntry) (dest : string) : HM unit :=
  fun h =>
    let w := world h in
    (Ok tt,
     MkHost
       (MkWorld (kv w) (<[dest := data e]> (songs w)) (calls w) (trace w) (resp w))
       (option_map (filter (fun x => negb (String.eqb (path x) (path e))))
          (download h))
       (machine h)).

(** The handler of POST /music-url (lib/exec.ts, lines 262-299). The
    fingerprint function throws when the body holds no url. *)
Definition music_url (body : Json) : HM unit :=
  match body with
  | JNull => hthrow TypeError
  | _ =>
      match body_url body with
      | None => hthrow ArgumentError
      | Some url =>
          let! found := lift (path_exists (songPath url)) in
          if found then
            log_url url ;;;
            lift (set_body (Some (BodyText (songFilename url))))
          else
            log_url url ;;;
            let! result := run_downloader (download_command (Some url)) in
            if Exec.code (Exec.status result) =? 0 then
              (fun h =>
                 match find_mp3 (download h) with
                 | Some e =>
                     if truthy_str (Some (path e)) then
                       (rename e (songPath url) ;;;
                        lift (set_body (Some (BodyText (songFilename url))))) h
                     else hret tt h
                 | None => hret tt h
                 end) ;;;
              clearDownloadsFolder
            else
              lift (set_status 500) ;;;
              lift (set_body (Some (BodyText "Failed to download song"))) ;;;
              clearDownloadsFolder
      end
  end.

(** One request on the host: as [serve]; the error listener removes the
    download directory, and the answer to an error is the framework's. *)
Definition serve_host (h : HM unit) (s : Host) : Host :=
  let w := world s in
  let s0 := MkHost (MkWorld (kv w) (songs w) (calls w) [] fresh_response)
              (download s) (machine s) in
  match h s0 with
  | (Ok _, s1) => s1
  | (Throw e, s1) =>
      let w2 := snd (on_error e (world s1)) in
      MkHost (MkWorld (kv w2) (songs w2) (calls w2) (trace w2) (error_response e))
        None (machine s1)
  end.

Definition post_music_url (body : Json) (s : Host) : Host :=
  serve_host (music_url body) s.

End Route.

End Download.

(** ** Shorthands used in the statements *)

(** The headers of a ranged answer. *)
Definition range_headers (start end_ : number) (songSize : Z)
  : gmap string string :=
  <["Content-Length" := number_to_string (num_add (num_sub end_ start) (Num 1))]>
    (<["Accept-Ranges" := "bytes"]>
       (<["Content-Range" :=
            "bytes " +:+ number_to_string start +:+ "-" +:+ number_to_string end_
              +:+ "/" +:+ number_to_string (Num songSize)]> ∅)).

(** Whether the text of [data.url] can be formed, as the log lines of the
    cache route require. *)
Definition url_prints (data : Json) : bool :=
  match data with
  | JObj fs =>
      match get_field "url" fs with
      | Some u => Download.printable u
      | None => true
      end
  | _ => true
  end.

(** Whether the clamp of a range that starts at [start] is computed
    exactly: start + maxChunk is a safe integer. A start that is not a
    number takes part in no arithmetic. *)
Definition safe_start (start : number) : bool :=
  match start with
  | Num s => s + maxChunk <=? MAX_SAFE_INTEGER
  | NaN => true
  end.

(** Every character of a string passes a test. *)
Fixpoint all_chars (p : ascii -> bool) (s : string) : bool :=
  match s with
  | String c s' => p c && all_chars p s'
  | EmptyString => true
  end.

(** A decimal digit. *)
Definition is_digit (c : ascii) : bool :=
  match digit_val c with Some _ => true | None => false end.

(** A plain word: not empty, without white space and without double
    quotes. *)
Definition plain_word (w : string) : bool :=
  negb (String.eqb w EmptyString) && all_chars Exec.word_char w.

(** A text without double quotes. *)
Definition quote_free (s : string) : bool :=
  all_chars (fun c => negb (Ascii.eqb c Exec.quote)) s.

(** ** Sample data for the commands and the download route *)

Module Demo.

(** Processes that print " hi" and a line feed and exit with the number
    of processes started before them: the first succeeds, the others
    fail. *)
Definition spawn (n : nat) (argv : list string) : option Exec.Process :=
  Some (Exec.MkProcess [x20; x68; x69; x0a] (Z.of_nat n) (Nat.eqb n 0)).

Definition machine : Exec.Machine := Exec.MkMachine 0 [].

(** A downloader that leaves one cover image and one song behind. *)
Definition fetched : list Download.WalkEntry :=
  [Download.MkEntry "data/download" "download" false [];
   Download.MkEntry "data/download/cover.jpg" "cover.jpg" true [x09];
   Download.MkEntry "data/download/track.mp3" "track.mp3" true [x05; x06; x07]].

Definition tools : Download.Tools :=
  Download.MkTools Sample.platform "data/download" spawn (fun _ _ => true)
    (fun _ _ _ => Some fetched).

(** The same tools with a downloader that leaves no song behind. *)
Definition fruitless : Download.Tools :=
  Download.MkTools Sample.platform "data/download" spawn (fun _ _ => true)
    (fun _ _ _ => Some [Download.MkEntry "data/download" "download" false []]).

(** The same tools with a downloader that is not installed. *)
Definition missing_tool : Download.Tools :=
  Download.MkTools Sample.platform "data/download"
    (fun _ _ => None) (fun _ _ => true) (fun _ _ d => d).

(** The same tools with a downloader that may not be run. *)
Definition forbidden_tool : Download.Tools :=
  Download.MkTools Sample.platform "data/download"
    (fun _ _ => None) (fun _ _ => false) (fun _ _ d => d).

Definition host : Download.Host :=
  Download.MkHost Sample.world None machine.

(** A host on which one process was started before, so that the next one
    fails. *)
Definition tired : Download.Host :=
  Download.MkHost Sample.world None (Exec.MkMachine 1 []).

Definition url : Json := JStr "https://open.example/track/1".

Definition request : Json := JObj [("url", url)].

(** The host after the sample request was served. *)
Definition loaded : Download.Host :=
  Download.post_music_url tools request host.

(** Processes of which the one named "missing" cannot be started. *)
Definition picky (n : nat) (argv : list string) : option Exec.Process :=
  match argv with
  | ["missing"] => None
  | _ => spawn n argv
  end.

End Demo.

(** * Properties *)

(** ** Sorting the fields of an object *)

Lemma leb_false_flip (a b : string) :
  String.leb a b = false -> String.leb b a = true.
Proof.
  intros H. destruct (String.leb_total a b) as [E | E]; congruence.
Qed.

Lemma leb_chain (a b c : string) :
  String.leb a b = true -> String.leb b c = true -> String.leb a c = true.
Proof.
  intros H1 H2. apply Is_true_true.
  change (String.le a c). transitivity b; apply Is_true_true; assumption.
Qed.

Lemma insert_field_swap (f g : string * Json) (fs : list (string * Json)) :
  fst f <> fst g ->
  insert_field f (insert_field g fs) = insert_field g (insert_field f fs).
Proof.
  intros Hne. induction fs as [| x fs IH]; simpl.
  - destruct (String.leb (fst f) (fst g)) eqn:Efg,
             (String.leb (fst g) (fst f)) eqn:Egf; try reflexivity.
    + exfalso. apply Hne. now apply String.leb_antisym.
    + apply leb_false_flip in Efg. congruence.
  - destruct (String.leb (fst g) (fst x)) eqn:Egx,
             (String.leb (fst f) (fst x)) eqn:Efx; simpl;
      rewrite ?Egx, ?Efx;
      destruct (String.leb (fst f) (fst g)) eqn:Efg,
               (String.leb (fst g) (fst f)) eqn:Egf; simpl;
      rewrite ?Egx, ?Efx; try reflexivity;
      try (exfalso; apply Hne; now apply String.leb_antisym);
      try (apply leb_false_flip in Efg; congruence);
      try (rewrite (leb_chain _ _ _ Efg Egx) in Efx; discriminate);
      try (rewrite (leb_chain _ _ _ Egf Efx) in Egx; discriminate).
    now rewrite IH.
Qed.

Lemma sort_fields_permutation (l1 l2 : list (string * Json)) :
  Permutation l1 l2 -> NoDup (map fst l1) -> sort_fields l1 = sort_fields l2.
Proof.
  induction 1 as [| x l l' Hp IH | x y l | l l' l'' Hp1 IH1 Hp2 IH2];
    intros Hnd; simpl in *.
  - reflexivity.
  - apply NoDup_cons in Hnd as [_ Hnd]. unfold sort_fields in *. simpl.
    now rewrite IH.
  - unfold sort_fields. simpl. apply insert_field_swap.
    apply NoDup_cons in Hnd as [Hy _]. intros E. apply Hy. rewrite E. left.
  - rewrite IH1 by assumption. apply IH2.
    assert (Hk : Permutation (map fst l) (map fst l')) by now apply Permutation_map.
    now rewrite <- Hk.
Qed.

Lemma canon_fields_keys (fs : list (string * Json)) :
  map fst (map (fun f => match f with (k, x) => (k, canon x) end) fs)
  = map fst fs.
Proof.
  induction fs as [| [k x] fs IH]; simpl; [reflexivity | now rewrite IH].
Qed.

Section CacheProperties.

Variable P : Platform.

(** C1. Two objects that hold the same fields, inserted in a different
    order, have the same fingerprint; in particular a request descriptor
    written as method-then-url and the same descriptor written as
    url-then-method do. Keys of one object are distinct. *)
Theorem fingerprint_order_independent (R1 R2 : list (string * Json)) :
  NoDup (map fst R1) ->
  Permutation R1 R2 ->
  hash P (JObj R1) = hash P (JObj R2).
Proof.
  intros Hnd Hperm. unfold hash, object_hash. f_equal. simpl. f_equal.
  apply sort_fields_permutation.
  - now apply Permutation_map.
  - now rewrite canon_fields_keys.
Qed.

(** *** The ways a cache request ends *)

Lemma truthy_json_body (v : Json) :
  truthy v = true -> json_body v = Some (BodyJson v).
Proof. destruct v; simpl; intros H; try reflexivity; discriminate. Qed.

Lemma read_url_ok (data : Json) (w : World) :
  data <> JNull -> read_url data w = (Ok tt, w).
Proof. destruct data; intros H; try reflexivity. contradiction. Qed.

Ltac run_cache :=
  unfold post_cache_request, serve, cache_request, safeParseAsync, kv_get,
    kv_set, axiod_request, set_body, update_response, on_error, set_status,
    emit, bind, ret, throw; simpl.

(** A hit: the stored value is truthy. *)
Lemma cache_request_hit (data v : Json) (w : World) :
  data <> JNull ->
  kv w !! hash P data = Some v ->
  truthy v = true ->
  post_cache_request P data w
  = MkWorld (kv w) (songs w) (calls w) [EvKvGet (hash P data)]
      (MkResponse None ∅ None (Some (BodyJson v))).
Proof.
  intros Hd Hk Ht. run_cache. rewrite Hk. simpl. rewrite Ht.
  rewrite read_url_ok by assumption. simpl.
  now rewrite truthy_json_body.
Qed.

(** A miss answered by the upstream service with a payload the store
    takes. *)
Lemma cache_request_miss (data p : Json) (w : World) :
  data <> JNull ->
  truthy (default JNull (kv w !! hash P data)) = false ->
  upstream P (calls w) (upstream_request P data) = Some p ->
  kv_accepts P p = true ->
  post_cache_request P data w
  = MkWorld (<[hash P data := p]> (kv w)) (songs w) (S (calls w))
      [EvKvGet (hash P data);
       EvDispatch (calls w) (upstream_request P data);
       EvKvSet (hash P data) p]
      (MkResponse None ∅ None (json_body p)).
Proof.
  intros Hd Hk Hu Ha. run_cache. rewrite Hk.
  rewrite read_url_ok by assumption. simpl. rewrite Hu, Ha. reflexivity.
Qed.

(** A miss answered by the upstream service with a payload the store
    rejects. *)
Lemma cache_request_rejected (data p : Json) (w : World) :
  data <> JNull ->
  truthy (default JNull (kv w !! hash P data)) = false ->
  upstream P (calls w) (upstream_request P data) = Some p ->
  kv_accepts P p = false ->
  post_cache_request P data w
  = MkWorld (kv w) (songs w) (S (calls w))
      [EvKvGet (hash P data);
       EvDispatch (calls w) (upstream_request P data);
       EvKvSet (hash P data) p;
       EvClearDownloads]
      (error_response TypeError).
Proof.
  intros Hd Hk Hu Ha. run_cache. rewrite Hk.
  rewrite read_url_ok by assumption. simpl. rewrite Hu, Ha. reflexivity.
Qed.

(** A miss on which the upstream request fails. *)
Lemma cache_request_failure (data : Json) (w : World) :
  data <> JNull ->
  truthy (default JNull (kv w !! hash P data)) = false ->
  upstream P (calls w) (upstream_request P data) = None ->
  post_cache_request P data w
  = MkWorld (kv w) (songs w) (S (calls w))
      [EvKvGet (hash P data);
       EvDispatch (calls w) (upstream_request P data);
       EvClearDownloads]
      (error_response UpstreamFailure).
Proof.
  intros Hd Hk Hu. run_cache. rewrite Hk.
  rewrite read_url_ok by assumption. simpl. rewrite Hu. reflexivity.
Qed.

(** The store is read first, whatever the body is. *)
Lemma cache_request_reads_store (data : Json) (w : World) :
  head (trace (post_cache_request P data w)) = Some (EvKvGet (hash P data)).
Proof.
  run_cache. destruct (truthy (default JNull (kv w !! hash P data)));
    destruct data; simpl; try reflexivity;
    match goal with
    | |- context [upstream P ?n ?r] =>
        destruct (upstream P n r) as [p |];
        [destruct (kv_accepts P p) |]; reflexivity
    end.
Qed.

(** No cache request is answered with status 400. *)
Lemma cache_request_never_400 (data : Json) (w : World) :
  response_status (resp (post_cache_request P data w)) <> 400%nat.
Proof.
  run_cache. destruct (truthy (default JNull (kv w !! hash P data))) eqn:Ht;
    destruct data; simpl; try discriminate;
    try (destruct (default JNull (kv w !! _)); simpl; discriminate);
    match goal with
    | |- context [upstream P ?n ?r] =>
        destruct (upstream P n r) as [p |];
        [destruct (kv_accepts P p); destruct p |]; simpl; discriminate
    end.
Qed.

(** C5, as the code has it. When a request misses and the upstream
    service answers with a truthy payload that the store takes, that
    payload is returned and stored, and a second request with the same
    body returns it again: the store alone is consulted, the upstream
    service is not called whatever it would answer, and the stored entry
    is left as it is. The body is a descriptor: it is not null and the text
    of its url can be formed. *)
Theorem second_resolve_serves_first_payload (data p1 : Json) (w : World) :
  data <> JNull ->
  url_prints data = true ->
  truthy (default JNull (kv w !! hash P data)) = false ->
  upstream P (calls w) (upstream_request P data) = Some p1 ->
  truthy p1 = true ->
  kv_accepts P p1 = true ->
  body (resp (post_cache_request P data w)) = Some (BodyJson p1) /\
  body (resp (post_cache_request P data (post_cache_request P data w)))
    = Some (BodyJson p1) /\
  response_status
    (resp (post_cache_request P data (post_cache_request P data w))) = 200%nat /\
  trace (post_cache_request P data (post_cache_request P data w))
    = [EvKvGet (hash P data)] /\
  calls (post_cache_request P data (post_cache_request P data w))
    = calls (post_cache_request P data w) /\
  kv (post_cache_request P data (post_cache_request P data w))
    = kv (post_cache_request P data w).
Proof.
  intros Hd _ Hmiss Hup Ht Ha.
  rewrite (cache_request_miss data p1 w Hd Hmiss Hup Ha).
  rewrite (cache_request_hit data p1);
    [| assumption | simpl; apply lookup_insert_eq | assumption].
  simpl. rewrite truthy_json_body by assumption. repeat split.
Qed.


(** C9. The hit test is the truthiness of the stored value: when the
    stored payload is falsy, a request with the same body is a miss. The
    store is read, the upstream service is called, and its answer, a
    payload the store takes, replaces the stored entry. The body is a
    descriptor: it is not null and the text of its url can be formed. *)
Theorem falsy_entry_is_refetched (data v p : Json) (w : World) :
  data <> JNull ->
  url_prints data = true ->
  kv w !! hash P data = Some v ->
  truthy v = false ->
  upstream P (calls w) (upstream_request P data) = Some p ->
  kv_accepts P p = true ->
  trace (post_cache_request P data w)
    = [EvKvGet (hash P data);
       EvDispatch (calls w) (upstream_request P data);
       EvKvSet (hash P data) p] /\
  calls (post_cache_request P data w) = S (calls w) /\
  kv (post_cache_request P data w) = <[hash P data := p]> (kv w) /\
  kv (post_cache_request P data w) !! hash P data = Some p /\
  body (resp (post_cache_request P data w)) = json_body p.
Proof.
  intros Hd _ Hk Hv Hup Ha.
  rewrite (cache_request_miss data p w Hd) by (try rewrite Hk; assumption).
  simpl. repeat split. apply lookup_insert_eq.
Qed.

End CacheProperties.

(** ** The songs route *)

Section SongProperties.

Variable P : Platform.

Ltac song_steps :=
  cbn [kv songs calls trace resp status headers rtype body content position
       app fst snd default from_option id negb].

Ltac run_song :=
  unfold get_songs_id, serve, get_song, path_exists, stat_size, readFile,
    open, seek, read, close, set_header, set_status, set_type, set_body,
    update_response, on_error, emit, bind, ret, throw; song_steps.

(** What a ranged request for an existing song does, by the outcome of the
    seek and of the buffer allocation. *)
Lemma get_song_ranged (w : World) (name h : string) (f : list byte)
    (start end_ : number) :
  songs w !! join P (songsDir P) name = Some f ->
  truthy_str (Some h) = true ->
  parse_range h (Z.of_nat (length f)) = (start, end_) ->
  let size := Z.of_nat (length f) in
  let path := join P (songsDir P) name in
  let whence := seek_mode start end_ size in
  let opened := [EvExists path; EvStat path; EvOpen path; EvSeek start whence] in
  let failed :=
    MkWorld (kv w) (songs w) (calls w) (opened ++ [EvClearDownloads])
      (error_response IOError) in
  get_songs_id P name (Some h) w =
  match seek_target P (MkFile f 0) start whence,
        new_Uint8Array (num_add (num_sub end_ start) (Num 1)) with
  | Some pos, Some buffer =>
      MkWorld (kv w) (songs w) (calls w)
        (opened ++ [EvRead (length buffer); EvClose])
        (MkResponse (Some 206%nat) (range_headers start end_ size)
           (Some "audio/mpeg")
           (Some (BodyBytes (fill P (MkFile f pos) buffer))))
  | _, _ => failed
  end.
Proof.
  intros Hf Ht Hp. run_song. rewrite !Hf, Ht.
  rewrite bool_decide_eq_true_2 by eauto.
  repeat (song_steps; first [rewrite Hf | rewrite Hp]). song_steps.
  destruct (seek_target P _ start _) as [pos |]; [| reflexivity].
  destruct (new_Uint8Array _) as [buffer |]; reflexivity.
Qed.

(** A request for a song that is not there. *)
Lemma get_song_missing (w : World) (name : string) (range : option string) :
  songs w !! join P (songsDir P) name = None ->
  get_songs_id P name range w
  = MkWorld (kv w) (songs w) (calls w) [EvExists (join P (songsDir P) name)]
      (MkResponse (Some 404%nat) ∅ None (Some (BodyText "Song not found"))).
Proof.
  intros Hf. run_song. rewrite Hf.
  rewrite bool_decide_eq_false_2 by (intros [x Hx]; discriminate).
  reflexivity.
Qed.

(** *** One read into a zero-filled buffer *)

Lemma fill_zeros (f : list byte) (pos : Z) (n : nat) :
  let avail := take n (drop (Z.to_nat pos) f) in
  let k := Nat.min (read_quota P (Z.to_nat pos) n) (length avail) in
  fill P (MkFile f pos) (replicate n x00)
  = (take k (drop (Z.to_nat pos) f) ++ replicate (n - k) x00)%list.
Proof.
  intros avail k. unfold fill. simpl. rewrite length_replicate.
  fold avail. fold k. f_equal.
  - unfold avail. rewrite take_take. f_equal.
    assert (length avail <= n)%nat by (unfold avail; rewrite length_take; lia).
    unfold k. lia.
  - apply drop_replicate.
Qed.

Lemma fill_length (f : File) (buffer : list byte) :
  length (fill P f buffer) = length buffer.
Proof.
  unfold fill. rewrite length_app, length_take, length_drop, length_take, length_drop.
  lia.
Qed.

Lemma new_Uint8Array_zeros (len : number) (buffer : list byte) :
  new_Uint8Array len = Some buffer ->
  buffer = replicate (length buffer) x00 /\
  (forall z, len = Num z -> Z.of_nat (length buffer) = z).
Proof.
  destruct len as [| z]; simpl.
  - intros [= <-]. split; [reflexivity | discriminate].
  - destruct (z <? 0) eqn:Hz; [discriminate |]. intros [= <-].
    rewrite length_replicate. split; [reflexivity |].
    intros z' [= <-]. apply Z.ltb_ge in Hz. lia.
Qed.

Lemma new_Uint8Array_num (z : Z) :
  0 <= z -> new_Uint8Array (Num z) = Some (replicate (Z.to_nat z) x00).
Proof.
  intros Hz. unfold new_Uint8Array.
  destruct (z <? 0) eqn:E; [apply Z.ltb_lt in E; lia | reflexivity].
Qed.

(** *** The parts of a header hold no separator, so the start is never
    negative *)

Lemma split_on_no_sep (sep : ascii) (s : string) :
  Forall (fun p => ~ In sep (list_ascii_of_string p)) (split_on sep s).
Proof.
  induction s as [| c s IH]; simpl.
  - constructor; [intros [] | constructor].
  - destruct (Ascii.eqb c sep) eqn:Hc.
    + constructor; [intros [] | exact IH].
    + destruct (split_on sep s) as [| p ps].
      * constructor; [| constructor]. simpl. intros [-> | []].
        rewrite Ascii.eqb_refl in Hc. discriminate.
      * apply Forall_cons in IH as [Hp Hps].
        constructor; [| exact Hps]. simpl. intros [-> | Hin].
        -- rewrite Ascii.eqb_refl in Hc. discriminate.
        -- now apply Hp.
Qed.

Lemma skip_space_keeps (c : ascii) (s : string) :
  ~ In c (list_ascii_of_string s) ->
  ~ In c (list_ascii_of_string (skip_space s)).
Proof.
  induction s as [| a s IH]; simpl; [auto |].
  intros Hn. destruct (is_js_space a); simpl; [| exact Hn].
  apply IH. intros Hin. apply Hn. now right.
Qed.

Lemma digit_val_nonneg (c : ascii) (d : Z) : digit_val c = Some d -> 0 <= d.
Proof.
  unfold digit_val.
  destruct ((48 <=? N_of_ascii c)%N && (N_of_ascii c <=? 57)%N) eqn:H;
    [| discriminate].
  intros [= <-]. apply andb_true_iff in H as [H _]. apply N.leb_le in H. lia.
Qed.

Lemma read_digits_nonneg (s : string) (acc : option Z) (v : Z) :
  0 <= default 0 acc -> read_digits s acc = Some v -> 0 <= v.
Proof.
  revert acc. induction s as [| c s IH]; simpl; intros acc Hacc H.
  - subst acc. exact Hacc.
  - destruct (digit_val c) as [d |] eqn:Hd.
    + apply IH in H; [exact H |]. simpl. apply digit_val_nonneg in Hd. lia.
    + subst acc. exact Hacc.
Qed.

Lemma parseInt10_nonneg (s : string) (z : Z) :
  ~ In "-"%char (list_ascii_of_string s) -> parseInt10 s = Num z -> 0 <= z.
Proof.
  intros Hn. apply skip_space_keeps in Hn. unfold parseInt10.
  assert (Hv : forall t, match read_digits t None with
                         | Some v => Num (1 * v)
                         | None => NaN
                         end = Num z -> 0 <= z).
  { intros t H. destruct (read_digits t None) as [v |] eqn:Hr; [| discriminate].
    injection H as <-. apply read_digits_nonneg in Hr; simpl; lia. }
  destruct (skip_space s) as [| c r] eqn:Hs.
  - apply Hv.
  - destruct (Ascii.eqb c "-") eqn:Hc.
    + apply Ascii.eqb_eq in Hc. subst c. exfalso. apply Hn. now left.
    + destruct (Ascii.eqb c "+"); apply Hv.
Qed.

Lemma range_start_nonneg (h : string) (size s : Z) (end0 end_ : number) :
  range_bounds h size = (end0, Num s, end_) -> 0 <= s.
Proof.
  unfold range_bounds. intros [= _ Hs _].
  pose proof (split_on_no_sep "-" (remove_first "bytes=" h)) as Hall.
  destruct (split_on "-" (remove_first "bytes=" h)) as [| p ps]; simpl in Hs.
  - discriminate.
  - apply Forall_cons in Hall as [Hp _]. now apply parseInt10_nonneg in Hs.
Qed.

(** A seek to a position within the file or within the limit of the file
    system is accepted. *)
Lemma seek_target_num (f : list byte) (s : Z) (whence : SeekMode) :
  let p := match whence with
           | SeekEnd => Z.of_nat (length f) + s
           | _ => s
           end in
  0 <= s ->
  p <= Z.of_nat (length f) \/ p <= seek_limit P ->
  seek_target P (MkFile f 0) (Num s) whence = Some p.
Proof.
  intros p Hs Hp. unfold seek_target.
  cbn [content position]. cbv zeta.
  replace (match whence with
           | SeekStart => s
           | SeekCurrent => 0 + s
           | SeekEnd => Z.of_nat (length f) + s
           end) with p by (unfold p; destruct whence; lia).
  assert (H0 : 0 <= p) by (unfold p; destruct whence; lia).
  apply Z.leb_le in H0. rewrite H0.
  destruct Hp as [Hp | Hp]; apply Z.leb_le in Hp; rewrite Hp;
    [| rewrite orb_true_r]; reflexivity.
Qed.

(** A NaN offset is taken as 0, which every seek mode accepts on a file
    that has just been opened. *)
Lemma seek_target_nan (f : list byte) (whence : SeekMode) :
  seek_target P (MkFile f 0) NaN whence
  = Some (match whence with
          | SeekEnd => Z.of_nat (length f)
          | _ => 0
          end).
Proof.
  unfold seek_target. cbn [content position]. cbv zeta.
  assert (H0 : (0 <=? Z.of_nat (length f)) = true) by (apply Z.leb_le; lia).
  destruct whence; rewrite ?Z.add_0_r, ?Z.add_0_l, ?H0, ?Z.leb_refl;
    reflexivity.
Qed.





(** C4, as the code has it. A Range header presented with an existing
    song is never rejected: whatever the header holds, the answer is 206
    or, when the seek or the allocation of the buffer throws, the 500 of
    the framework, which carries no Content-Range; no answer has status
    416. A start that is not a number is answered 206 with an empty body.
    A start at or beyond the size of the song, with an end not below it,
    is answered 206 with the parsed values written into Content-Range as
    they are and a body of end - start + 1 zeros; here the values are safe
    integers and the position sought, at most size + start, is within the
    limit of the file system. *)
Theorem range_header_is_never_rejected (w : World) (name h : string)
    (f : list byte) (start end_ : number) :
  songs w !! join P (songsDir P) name = Some f ->
  truthy_str (Some h) = true ->
  parse_range h (Z.of_nat (length f)) = (start, end_) ->
  let answer := resp (get_songs_id P name (Some h) w) in
  let size := Z.of_nat (length f) in
  (response_status answer = 206%nat \/ response_status answer = 500%nat) /\
  response_status answer <> 416%nat /\
  (response_status answer = 500%nat ->
   headers answer !! "Content-Range" = None /\
   body answer = Some (BodyText "Internal Server Error")) /\
  (start = NaN ->
   response_status answer = 206%nat /\
   body answer = Some (BodyBytes [])) /\
  (forall s e : Z,
     start = Num s -> end_ = Num e ->
     size <= s <= e -> e <= MAX_SAFE_INTEGER -> size + s <= seek_limit P ->
     response_status answer = 206%nat /\
     headers answer !! "Content-Range"
       = Some ("bytes " +:+ number_to_string (Num s) +:+ "-"
                 +:+ number_to_string (Num e) +:+ "/"
                 +:+ number_to_string (Num size)) /\
     body answer = Some (BodyBytes (replicate (Z.to_nat (e - s + 1)) x00))).
Proof.
  intros Hf Ht Hp answer size. subst answer size.
  rewrite (get_song_ranged w name h f start end_ Hf Ht Hp).
  split; [| split; [| split; [| split]]].
  - destruct (seek_target P _ start _) as [pos |];
      [destruct (new_Uint8Array _) as [buffer |] |];
      [left | right | right]; reflexivity.
  - destruct (seek_target P _ start _) as [pos |];
      [destruct (new_Uint8Array _) as [buffer |] |]; discriminate.
  - destruct (seek_target P _ start _) as [pos |];
      [destruct (new_Uint8Array _) as [buffer |] |];
      cbn [resp headers body status response_status error_response];
      first [discriminate | intros _; split; [apply lookup_empty | reflexivity]].
  - intros ->. rewrite seek_target_nan.
    replace (num_add (num_sub end_ NaN) (Num 1)) with NaN
      by (destruct end_; reflexivity).
    cbn [new_Uint8Array resp body status response_status].
    split; [reflexivity |]. do 2 f_equal.
    apply nil_length_inv. now rewrite fill_length.
  - intros s e -> -> Hs _ Hlim.
    rewrite seek_target_num
      by (try lia; right; destruct (seek_mode _ _ _); lia).
    change (num_add (num_sub (Num e) (Num s)) (Num 1)) with (Num (e - s + 1)).
    rewrite new_Uint8Array_num by lia.
    cbn [resp headers body status response_status].
    split; [reflexivity | split].
    + unfold range_headers.
      rewrite lookup_insert_ne by discriminate.
      rewrite lookup_insert_ne by discriminate.
      apply lookup_insert_eq.
    + rewrite fill_zeros.
      rewrite drop_ge by (destruct (seek_mode _ _ _); lia).
      rewrite !take_nil. cbn [length app].
      now rewrite Nat.min_0_r, Nat.sub_0_r.
Qed.

(** *** Where the ranged read is exact and where it is not *)

Lemma drop_past_end (f : list byte) (pos : nat) :
  (length f <= pos)%nat -> drop pos f = [].
Proof. intros H. now apply drop_ge. Qed.

(** A range that starts after the first byte and ends at the last byte is
    sought from the end of the file, so the read starts past the end and
    the body is all zeros (the position sought, size + start, being within
    the limit of the file system). *)
Lemma tail_range_is_blank (w : World) (name h : string) (f : list byte)
    (s e : Z) :
  songs w !! join P (songsDir P) name = Some f ->
  truthy_str (Some h) = true ->
  parse_range h (Z.of_nat (length f)) = (Num s, Num e) ->
  0 < s <= e ->
  e = Z.of_nat (length f) - 1 ->
  Z.of_nat (length f) + s <= seek_limit P ->
  response_status (resp (get_songs_id P name (Some h) w)) = 206%nat /\
  body (resp (get_songs_id P name (Some h) w))
    = Some (BodyBytes (replicate (Z.to_nat (e - s + 1)) x00)).
Proof.
  intros Hf Ht Hp Hs He Hlim.
  rewrite (get_song_ranged w name h f (Num s) (Num e) Hf Ht Hp).
  assert (Hm : seek_mode (Num s) (Num e) (Z.of_nat (length f)) = SeekEnd).
  { unfold seek_mode. simpl.
    destruct (s =? 0) eqn:E0; [apply Z.eqb_eq in E0; lia |].
    destruct (e =? Z.of_nat (length f) - 1) eqn:E1; [reflexivity |].
    apply Z.eqb_neq in E1. lia. }
  rewrite Hm, seek_target_num by (try lia; right; lia).
  change (num_add (num_sub (Num e) (Num s)) (Num 1)) with (Num (e - s + 1)).
  rewrite new_Uint8Array_num by lia.
  cbn [resp body status response_status]. split; [reflexivity |].
  rewrite fill_zeros. rewrite drop_past_end by lia.
  rewrite !take_nil. cbn [length app]. now rewrite Nat.min_0_r, Nat.sub_0_r.
Qed.

(** X9. Any other range within the song is read exactly, provided the single
    read is not short. *)
Lemma ranged_read_is_exact (w : World) (name h : string) (f : list byte)
    (s e : Z) :
  songs w !! join P (songsDir P) name = Some f ->
  truthy_str (Some h) = true ->
  parse_range h (Z.of_nat (length f)) = (Num s, Num e) ->
  0 <= s <= e ->
  e < Z.of_nat (length f) ->
  s = 0 \/ e <> Z.of_nat (length f) - 1 ->
  (Z.to_nat (e - s + 1)
   <= read_quota P (Z.to_nat s) (Z.to_nat (e - s + 1)))%nat ->
  response_status (resp (get_songs_id P name (Some h) w)) = 206%nat /\
  body (resp (get_songs_id P name (Some h) w))
    = Some (BodyBytes (take (Z.to_nat (e - s + 1)) (drop (Z.to_nat s) f))).
Proof.
  intros Hf Ht Hp Hs He Hcase Hq.
  rewrite (get_song_ranged w name h f (Num s) (Num e) Hf Ht Hp).
  assert (Hm : seek_mode (Num s) (Num e) (Z.of_nat (length f)) <> SeekEnd).
  { unfold seek_mode. simpl.
    destruct (s =? 0) eqn:E0; [discriminate |].
    destruct (e =? Z.of_nat (length f) - 1) eqn:E1; [| discriminate].
    apply Z.eqb_neq in E0. apply Z.eqb_eq in E1. lia. }
  assert (Hpos : match seek_mode (Num s) (Num e) (Z.of_nat (length f)) with
                 | SeekEnd => Z.of_nat (length f) + s
                 | _ => s
                 end = s)
    by (destruct (seek_mode _ _ _); [reflexivity | reflexivity | contradiction]).
  rewrite seek_target_num by (try lia; left; rewrite Hpos; lia).
  change (num_add (num_sub (Num e) (Num s)) (Num 1)) with (Num (e - s + 1)).
  rewrite new_Uint8Array_num by lia.
  cbn [resp body status response_status]. split; [reflexivity |].
  rewrite Hpos, fill_zeros.
  set (n := Z.to_nat (e - s + 1)) in *.
  assert (Hlen : length (take n (drop (Z.to_nat s) f)) = n).
  { rewrite length_take, length_drop. unfold n. lia. }
  rewrite Hlen, Nat.min_r by exact Hq.
  rewrite Nat.sub_diag. simpl. now rewrite app_nil_r.
Qed.

End SongProperties.

(** ** The properties at the sample data *)

(** The two writings of the sample descriptor have one fingerprint. *)
Lemma fingerprint_order_independent_witness :
  NoDup (map fst [("method", JStr "GET"); ("url", JStr "https://api.example/x")]) /\
  Permutation
    [("method", JStr "GET"); ("url", JStr "https://api.example/x")]
    [("url", JStr "https://api.example/x"); ("method", JStr "GET")] /\
  hash Sample.platform Sample.descriptor
  = hash Sample.platform Sample.descriptor_swapped.
Proof.
  assert (Hnd : NoDup (map fst [("method", JStr "GET");
                                ("url", JStr "https://api.example/x")])).
  { simpl. apply NoDup_cons. split; [| apply NoDup_singleton].
    intros Hin. apply list_elem_of_singleton in Hin. discriminate. }
  split; [exact Hnd | split; [apply perm_swap |]].
  exact (fingerprint_order_independent Sample.platform _ _ Hnd (perm_swap _ _ _)).
Defined.

(** C2, at a body the schema rejects. The schema finds issues in it on
    every platform, and yet, on every platform and in every world, the
    handler reads the store first and never answers 400; on the sample
    platform with an empty store it calls the upstream service and writes
    the answer to the store. *)
Theorem invalid_body_reaches_store :
  (forall P : Platform, cacheRequestSchema P Sample.bad_request <> []) /\
  (forall (P : Platform) (w : World),
     head (trace (post_cache_request P Sample.bad_request w))
       = Some (EvKvGet (hash P Sample.bad_request)) /\
     response_status (resp (post_cache_request P Sample.bad_request w))
       <> 400%nat) /\
  post_cache_request Sample.platform Sample.bad_request Sample.world
  = MkWorld {[ "method=DELETE;url=nope" := JNum 0 ]} (songs Sample.world) 1
      [EvKvGet "method=DELETE;url=nope";
       EvDispatch 0 (upstream_request Sample.platform Sample.bad_request);
       EvKvSet "method=DELETE;url=nope" (JNum 0)]
      (MkResponse None ∅ None (Some (BodyJson (JNum 0)))).
Proof.
  split; [| split].
  - intros P. simpl. discriminate.
  - intros P w. split.
    + apply cache_request_reads_store.
    + apply cache_request_never_400.
  - vm_compute. reflexivity.
Qed.

(** C3, at a range that ends with the last byte of the song. The answer
    is a 206 that announces bytes 2-3 of 4, but the file is sought from its
    end, the read starts past the end, and the body is two zero bytes and
    not the bytes of the song at offsets 2 and 3. *)
Theorem tail_range_returns_zeros :
  parse_range "bytes=2-3" 4 = (Num 2, Num 3) /\
  response_status
    (resp (get_songs_id Sample.platform "a.mp3" (Some "bytes=2-3") Sample.world))
    = 206%nat /\
  headers
    (resp (get_songs_id Sample.platform "a.mp3" (Some "bytes=2-3") Sample.world))
    !! "Content-Range" = Some "bytes 2-3/4" /\
  trace (get_songs_id Sample.platform "a.mp3" (Some "bytes=2-3") Sample.world)
    = [EvExists "data/songs/a.mp3"; EvStat "data/songs/a.mp3";
       EvOpen "data/songs/a.mp3"; EvSeek (Num 2) SeekEnd; EvRead 2; EvClose] /\
  body
    (resp (get_songs_id Sample.platform "a.mp3" (Some "bytes=2-3") Sample.world))
    = Some (BodyBytes [x00; x00]) /\
  take 2 (drop 2 Sample.song) = [x03; x04].
Proof. vm_compute. repeat split. Qed.

(** C4 as stated fails: a start beyond the size of the song and a start
    that is not a number are both answered 206, not 416. *)
Lemma range_beyond_song_is_served :
  parse_range "bytes=7-9" 4 = (Num 7, Num 9) /\
  response_status
    (resp (get_songs_id Sample.platform "a.mp3" (Some "bytes=7-9") Sample.world))
    = 206%nat /\
  parse_range "bytes=abc-" 4 = (NaN, Num 3) /\
  response_status
    (resp (get_songs_id Sample.platform "a.mp3" (Some "bytes=abc-") Sample.world))
    = 206%nat /\
  ~ (response_status
       (resp (get_songs_id Sample.platform "a.mp3" (Some "bytes=7-9") Sample.world))
     = 416%nat).
Proof. vm_compute. repeat split. discriminate. Qed.

Lemma range_header_is_never_rejected_witness :
  songs Sample.world !! join Sample.platform (songsDir Sample.platform) "a.mp3"
    = Some Sample.song /\
  truthy_str (Some "bytes=7-9") = true /\
  parse_range "bytes=7-9" (Z.of_nat (length Sample.song)) = (Num 7, Num 9) /\
  (Z.of_nat (length Sample.song) <= 7 <= 9 /\ 9 <= MAX_SAFE_INTEGER /\
   Z.of_nat (length Sample.song) + 7 <= seek_limit Sample.platform) /\
  response_status
    (resp (get_songs_id Sample.platform "a.mp3" (Some "bytes=7-9") Sample.world))
    = 206%nat /\
  body
    (resp (get_songs_id Sample.platform "a.mp3" (Some "bytes=7-9") Sample.world))
    = Some (BodyBytes (replicate (Z.to_nat (9 - 7 + 1)) x00)) /\
  response_status
    (resp (get_songs_id Sample.platform "a.mp3" (Some "bytes=7-9") Sample.world))
    <> 416%nat.
Proof.
  assert (H1 : songs Sample.world
                 !! join Sample.platform (songsDir Sample.platform) "a.mp3"
               = Some Sample.song) by reflexivity.
  assert (H2 : truthy_str (Some "bytes=7-9") = true) by reflexivity.
  assert (H3 : parse_range "bytes=7-9" (Z.of_nat (length Sample.song))
               = (Num 7, Num 9)) by reflexivity.
  assert (H4 : Z.of_nat (length Sample.song) <= 7 <= 9) by (simpl; lia).
  assert (H5 : 9 <= MAX_SAFE_INTEGER) by (vm_compute; discriminate).
  assert (H6 : Z.of_nat (length Sample.song) + 7 <= seek_limit Sample.platform)
    by (vm_compute; discriminate).
  split; [exact H1 | split; [exact H2 | split; [exact H3 |]]].
  split; [exact (conj H4 (conj H5 H6)) |].
  destruct (range_header_is_never_rejected Sample.platform Sample.world
              "a.mp3" "bytes=7-9" Sample.song (Num 7) (Num 9) H1 H2 H3)
    as (_ & Hne & _ & _ & Hbeyond).
  destruct (Hbeyond 7 9 eq_refl eq_refl H4 H5 H6) as (Hs & _ & Hb).
  split; [exact Hs | split; [exact Hb | exact Hne]].
Defined.

(** C5 as stated fails: when the first payload is the number 0, the second
    request is a miss again; it returns the second payload and replaces
    the stored entry. *)
Lemma falsy_first_payload_is_refetched :
  body (resp Sample.once) = Some (BodyJson (JNum 0)) /\
  body (resp Sample.twice) = Some (BodyJson (JNum 1)) /\
  body (resp Sample.twice) <> body (resp Sample.once) /\
  calls Sample.twice = 2%nat /\
  kv Sample.once !! hash Sample.platform Sample.descriptor = Some (JNum 0) /\
  kv Sample.twice !! hash Sample.platform Sample.descriptor = Some (JNum 1).
Proof. vm_compute. repeat split. discriminate. Qed.

Lemma second_resolve_serves_first_payload_witness :
  Sample.descriptor <> JNull /\
  url_prints Sample.descriptor = true /\
  kv_accepts Sample.platform (JNum 1) = true /\
  truthy (default JNull (kv Sample.warm !! hash Sample.platform Sample.descriptor))
    = false /\
  upstream Sample.platform (calls Sample.warm)
    (upstream_request Sample.platform Sample.descriptor) = Some (JNum 1) /\
  truthy (JNum 1) = true /\
  body (resp (post_cache_request Sample.platform Sample.descriptor
                (post_cache_request Sample.platform Sample.descriptor Sample.warm)))
    = Some (BodyJson (JNum 1)) /\
  calls (post_cache_request Sample.platform Sample.descriptor
           (post_cache_request Sample.platform Sample.descriptor Sample.warm))
    = calls (post_cache_request Sample.platform Sample.descriptor Sample.warm).
Proof.
  assert (H1 : Sample.descriptor <> JNull) by discriminate.
  assert (H2 : truthy (default JNull
                         (kv Sample.warm !! hash Sample.platform Sample.descriptor))
               = false) by reflexivity.
  assert (H3 : upstream Sample.platform (calls Sample.warm)
                 (upstream_request Sample.platform Sample.descriptor)
               = Some (JNum 1)) by reflexivity.
  assert (H4 : truthy (JNum 1) = true) by reflexivity.
  assert (H5 : url_prints Sample.descriptor = true) by reflexivity.
  assert (H6 : kv_accepts Sample.platform (JNum 1) = true) by reflexivity.
  destruct (second_resolve_serves_first_payload Sample.platform
              Sample.descriptor (JNum 1) Sample.warm H1 H5 H2 H3 H4 H6)
    as (_ & Hb & _ & _ & Hc & _).
  repeat split; assumption.
Defined.


Lemma falsy_entry_is_refetched_witness :
  Sample.descriptor <> JNull /\
  url_prints Sample.descriptor = true /\
  kv_accepts Sample.platform (JNum 1) = true /\
  kv Sample.once !! hash Sample.platform Sample.descriptor = Some (JNum 0) /\
  truthy (JNum 0) = false /\
  upstream Sample.platform (calls Sample.once)
    (upstream_request Sample.platform Sample.descriptor) = Some (JNum 1) /\
  trace (post_cache_request Sample.platform Sample.descriptor Sample.once)
    = [EvKvGet (hash Sample.platform Sample.descriptor);
       EvDispatch (calls Sample.once)
         (upstream_request Sample.platform Sample.descriptor);
       EvKvSet (hash Sample.platform Sample.descriptor) (JNum 1)] /\
  kv (post_cache_request Sample.platform Sample.descriptor Sample.once)
    !! hash Sample.platform Sample.descriptor = Some (JNum 1).
Proof.
  assert (H1 : Sample.descriptor <> JNull) by discriminate.
  assert (H2 : kv Sample.once !! hash Sample.platform Sample.descriptor
               = Some (JNum 0)) by reflexivity.
  assert (H3 : truthy (JNum 0) = false) by reflexivity.
  assert (H4 : upstream Sample.platform (calls Sample.once)
                 (upstream_request Sample.platform Sample.descriptor)
               = Some (JNum 1)) by reflexivity.
  assert (H5 : url_prints Sample.descriptor = true) by reflexivity.
  assert (H6 : kv_accepts Sample.platform (JNum 1) = true) by reflexivity.
  destruct (falsy_entry_is_refetched Sample.platform Sample.descriptor
              (JNum 0) (JNum 1) Sample.once H1 H5 H2 H3 H4 H6)
    as (Ht & _ & _ & Hk & _).
  repeat split; assumption.
Defined.




(** A read that delivers one byte of the two requested: the second byte
    of the body is zero and the answer is still a 206. *)
Example short_read_leaves_zeros :
  response_status
    (resp (get_songs_id Sample.trickle "a.mp3" (Some "bytes=1-2") Sample.world))
    = 206%nat /\
  body (resp (get_songs_id Sample.trickle "a.mp3" (Some "bytes=1-2") Sample.world))
    = Some (BodyBytes [x02; x00]).
Proof. vm_compute. split; reflexivity. Qed.

(** * Further properties *)

(** ** Splitting a command line *)

Lemma match_here_token (s tok : string) (n : nat) :
  Exec.match_here s = Some (tok, n) -> tok <> EmptyString /\ (1 <= n)%nat.
Proof.
  destruct s as [| c s]; simpl; [discriminate |].
  destruct (Exec.word_char c) eqn:Hw.
  - intros [= <- <-]. split; [discriminate | simpl; lia].
  - destruct (Ascii.eqb c Exec.quote); [| discriminate].
    destruct (Exec.until_quote s) as [inner |]; [| discriminate].
    intros [= <- <-]. split; [| lia].
    destruct (String.eqb inner EmptyString) eqn:E; [discriminate |].
    now apply String.eqb_neq in E.
Qed.

Lemma scan_tokens_nonempty (s : string) (skip : nat) :
  Forall (fun t => t <> EmptyString) (Exec.scan skip s).
Proof.
  revert skip. induction s as [| c s IH]; intros skip; cbn [Exec.scan].
  - constructor.
  - destruct skip as [| k]; [| apply IH].
    destruct (Exec.match_here (String c s)) as [[tok n] |] eqn:Hm; [| apply IH].
    constructor; [| apply IH]. now apply match_here_token in Hm.
Qed.

(** X1. No argument that [splitCommand] returns is the empty string. *)
Theorem splitCommand_no_empty_argument (command : string) :
  Forall (fun t => t <> EmptyString) (Exec.splitCommand command).
Proof. apply scan_tokens_nonempty. Qed.

Lemma scan_skip (a r : string) :
  Exec.scan (String.length a) (a +:+ r) = Exec.scan 0 r.
Proof. induction a as [| c a IH]; simpl; [reflexivity | exact IH]. Qed.

Lemma word_prefix_app (w r : string) :
  all_chars Exec.word_char w = true ->
  Exec.word_prefix r = EmptyString ->
  Exec.word_prefix (w +:+ r) = w.
Proof.
  intros Hw Hr. induction w as [| c w IH]; simpl in *; [exact Hr |].
  apply andb_true_iff in Hw as [Hc Hw]. rewrite Hc. now rewrite IH.
Qed.

Lemma scan_word (w r : string) :
  plain_word w = true ->
  Exec.word_prefix r = EmptyString ->
  Exec.scan 0 (w +:+ r) = w :: Exec.scan 0 r.
Proof.
  unfold plain_word. intros Hw Hr. apply andb_true_iff in Hw as [Hne Hall].
  destruct w as [| c w]; [discriminate |].
  pose proof (word_prefix_app (String c w) r Hall Hr) as Hp.
  simpl in Hall. apply andb_true_iff in Hall as [Hc Hall].
  change (String c w +:+ r) with (String c (w +:+ r)) in *.
  cbn [Exec.scan Exec.match_here]. rewrite Hc, Hp.
  cbn [String.length Nat.sub]. rewrite Nat.sub_0_r. now rewrite scan_skip.
Qed.

Lemma space_is_no_word_char (c : ascii) :
  is_js_space c = true -> Exec.word_char c = false /\ Ascii.eqb c Exec.quote = false.
Proof.
  intros Hs. unfold Exec.word_char. rewrite Hs. split; [reflexivity |].
  destruct (Ascii.eqb c Exec.quote) eqn:E; [| reflexivity].
  apply Ascii.eqb_eq in E. subst c. discriminate Hs.
Qed.

Lemma scan_space (c : ascii) (r : string) :
  is_js_space c = true -> Exec.scan 0 (String c r) = Exec.scan 0 r.
Proof.
  intros Hs. apply space_is_no_word_char in Hs as [Hw Hq].
  cbn [Exec.scan Exec.match_here]. now rewrite Hw, Hq.
Qed.

(** X2. Plain words joined by single spaces are split into those words
    again. *)
Theorem splitCommand_joined_words (ws : list string) :
  Forall (fun w => plain_word w = true) ws ->
  Exec.splitCommand (String.concat " " ws) = ws.
Proof.
  unfold Exec.splitCommand. induction 1 as [| w ws Hw Hws IH]; [reflexivity |].
  destruct ws as [| w2 ws].
  - assert (Hnil : w +:+ EmptyString = w).
    { clear. induction w as [| c w IHw]; [reflexivity |].
      change (String c w +:+ EmptyString) with (String c (w +:+ EmptyString)).
      now rewrite IHw. }
    change (String.concat " " [w]) with w. rewrite <- Hnil at 1.
    now rewrite (scan_word w EmptyString Hw eq_refl).
  - change (String.concat " " (w :: w2 :: ws))
      with (w +:+ String " " (String.concat " " (w2 :: ws))).
    rewrite scan_word by (try assumption; reflexivity).
    rewrite scan_space by reflexivity. now rewrite IH.
Qed.

Lemma until_quote_app (inner rest : string) :
  quote_free inner = true ->
  Exec.until_quote (inner +:+ String Exec.quote rest) = Some inner.
Proof.
  intros Hq. induction inner as [| c inner IH]; simpl in *; [reflexivity |].
  apply andb_true_iff in Hq as [Hc Hq]. apply negb_true_iff in Hc.
  rewrite Hc, IH by assumption. reflexivity.
Qed.

Lemma scan_skip_quoted (inner rest : string) :
  Exec.scan (S (String.length inner)) (inner +:+ String Exec.quote rest)
  = Exec.scan 0 rest.
Proof. induction inner as [| c inner IH]; simpl; [reflexivity | exact IH]. Qed.

(** X3. A text between double quotes is one argument, white space included,
    and the quotes are dropped; between two adjacent quotes the argument
    is the two quotes themselves. A double quote that is never closed is
    passed over. *)
Theorem splitCommand_quoted_argument (inner rest : string) :
  quote_free inner = true ->
  Exec.splitCommand (String Exec.quote (inner +:+ String Exec.quote rest))
  = (if String.eqb inner EmptyString
     then String Exec.quote (String Exec.quote EmptyString)
     else inner) :: Exec.splitCommand rest
  /\ (quote_free rest = true ->
      Exec.splitCommand (String Exec.quote rest) = Exec.splitCommand rest).
Proof.
  intros Hq. unfold Exec.splitCommand. split.
  - cbn [Exec.scan Exec.match_here].
    change (Exec.word_char Exec.quote) with false.
    change (Ascii.eqb Exec.quote Exec.quote) with true. cbv iota.
    rewrite until_quote_app by assumption.
    replace (String.length inner + 2 - 1)%nat with (S (String.length inner)) by lia.
    now rewrite scan_skip_quoted.
  - intros Hr. cbn [Exec.scan Exec.match_here].
    change (Exec.word_char Exec.quote) with false.
    change (Ascii.eqb Exec.quote Exec.quote) with true. cbv iota.
    assert (Hn : Exec.until_quote rest = None).
    { clear Hq. induction rest as [| c r IH]; simpl in *; [reflexivity |].
      apply andb_true_iff in Hr as [Hc Hr]. apply negb_true_iff in Hc.
      now rewrite Hc, IH. }
    now rewrite Hn.
Qed.

(** ** Running one command and a sequence of commands *)

Section ExecProperties.

Variable spawn : nat -> list string -> option Exec.Process.

Lemma pump_closed_form (o : Exec.IOptions) (bytes : list byte)
    (response : list N) (out : list byte) :
  Exec.pump o bytes response out
  = (if Exec.captures o
     then (response ++ flat_map Exec.decode_byte bytes)%list
     else response,
     if Exec.dumps o then (out ++ bytes)%list else out).
Proof.
  revert response out. induction bytes as [| b bytes IH]; intros response out.
  - simpl. destruct (Exec.captures o), (Exec.dumps o);
      now rewrite ?app_nil_r.
  - cbn [Exec.pump flat_map]. rewrite IH.
    destruct (Exec.captures o), (Exec.dumps o);
      now rewrite <- ?app_assoc.
Qed.

Lemma decode_ascii (bytes : list byte) :
  Forall (fun b => (Byte.to_N b < 128)%N) bytes ->
  flat_map Exec.decode_byte bytes = map Byte.to_N bytes.
Proof.
  induction 1 as [| b bytes Hb _ IH]; [reflexivity |].
  cbn [flat_map map]. rewrite IH. unfold Exec.decode_byte.
  apply N.ltb_lt in Hb. now rewrite Hb.
Qed.

Lemma exec_closed_form (command : string) (o : Exec.IOptions)
    (m : Exec.Machine) (p : Exec.Process) :
  spawn (Exec.started m) (Exec.splitCommand command) = Some p ->
  Exec.exec spawn command o m
  = (Ok (Exec.MkExecResponse
           (Exec.MkStatus (Exec.proc_code p) (Exec.proc_success p))
           (if Exec.captures o
            then Exec.trim (flat_map Exec.decode_byte (Exec.proc_stdout p))
            else [])),
     Exec.MkMachine (S (Exec.started m))
       (if Exec.dumps o
        then (Exec.written m ++ Exec.proc_stdout p)%list
        else Exec.written m)).
Proof.
  intros Hp. unfold Exec.exec. rewrite Hp.
  destruct (Exec.reads_output o) eqn:Hr.
  - rewrite pump_closed_form. simpl.
    destruct (Exec.captures o), (Exec.dumps o); reflexivity.
  - assert (Hc : Exec.captures o = false /\ Exec.dumps o = false).
    { unfold Exec.reads_output, Exec.captures, Exec.dumps in *.
      destruct (Exec.opt_output o) as [[] |]; try discriminate; auto. }
    destruct Hc as [-> ->]. reflexivity.
Qed.

(** X4. What [exec] returns and writes, by output mode. The status is the
    status of the process. The output is the trimmed text of the process
    output, decoded byte by byte, in the modes Capture and Tee, and empty
    in every other mode and when the mode is left out. The bytes of the
    process output are written to the standard output in the modes StdOut
    and Tee and in no other. Bytes below 128 decode to their own
    character. *)
Theorem exec_output_modes (command : string) (o : Exec.IOptions)
    (m : Exec.Machine) (p : Exec.Process) :
  spawn (Exec.started m) (Exec.splitCommand command) = Some p ->
  Exec.exec spawn command o m
  = (Ok (Exec.MkExecResponse
           (Exec.MkStatus (Exec.proc_code p) (Exec.proc_success p))
           (if Exec.captures o
            then Exec.trim (flat_map Exec.decode_byte (Exec.proc_stdout p))
            else [])),
     Exec.MkMachine (S (Exec.started m))
       (if Exec.dumps o
        then (Exec.written m ++ Exec.proc_stdout p)%list
        else Exec.written m))
  /\ (Forall (fun b => (Byte.to_N b < 128)%N) (Exec.proc_stdout p) ->
      flat_map Exec.decode_byte (Exec.proc_stdout p)
      = map Byte.to_N (Exec.proc_stdout p)).
Proof.
  intros Hp. split; [now apply exec_closed_form | apply decode_ascii].
Qed.

Lemma exec_started (command : string) (o : Exec.IOptions)
    (m m' : Exec.Machine) (r : Exec.IExecResponse) :
  Exec.exec spawn command o m = (Ok r, m') ->
  Exec.started m' = S (Exec.started m).
Proof.
  unfold Exec.exec.
  destruct (spawn (Exec.started m) (Exec.splitCommand command)) as [p |];
    [| discriminate].
  destruct (if Exec.reads_output o then _ else _) as [response out].
  now intros [= _ <-].
Qed.

Lemma run_sequence_all (commands : list string) (o : Exec.IOptions)
    (acc rs : list Exec.IExecResponse) (m m' : Exec.Machine) :
  Exec.stops_on_error o = false ->
  Exec.run_sequence spawn commands o acc m = (Ok rs, m') ->
  length rs = (length acc + length commands)%nat
  /\ Exec.started m' = (Exec.started m + length commands)%nat
  /\ acc `prefix_of` rs.
Proof.
  intros Hs. revert acc m.
  induction commands as [| c commands IH]; intros acc m; cbn [Exec.run_sequence].
  - intros [= <- <-]. simpl. repeat split; try lia. reflexivity.
  - destruct (Exec.exec spawn c o m) as [[r | e] m1] eqn:He; [| discriminate].
    rewrite Hs. cbn [andb]. intros H. apply IH in H as (Hl & Hm & Hp).
    apply exec_started in He. rewrite length_app in Hl. simpl in *.
    repeat split; try lia.
    etransitivity; [| exact Hp]. now apply prefix_app_r.
Qed.

(** X5. When [continueOnError] is true or is left out, as in the default
    options of [exec], a sequence that returns has run every command, also
    behind a command that failed: there is one result and one process for
    each command. *)
Theorem execSequence_runs_all (commands : list string) (o : Exec.IOptions)
    (rs : list Exec.IExecResponse) (m m' : Exec.Machine) :
  Exec.stops_on_error o = false ->
  Exec.execSequence spawn commands o m = (Ok rs, m') ->
  length rs = length commands
  /\ Exec.started m' = (Exec.started m + length commands)%nat.
Proof.
  intros Hs H. apply run_sequence_all in H as (Hl & Hm & _); [| exact Hs].
  simpl in Hl. split; assumption.
Qed.

Lemma run_sequence_stops (commands : list string) (o : Exec.IOptions)
    (acc rs : list Exec.IExecResponse) (m m' : Exec.Machine) :
  Exec.stops_on_error o = true ->
  Exec.run_sequence spawn commands o acc m = (Ok rs, m') ->
  exists good tail : list Exec.IExecResponse,
    rs = (acc ++ good ++ tail)%list
    /\ Forall (fun r => Exec.code (Exec.status r) = 0) good
    /\ ((tail = [] /\ length good = length commands)
        \/ (exists r, tail = [r] /\ Exec.code (Exec.status r) <> 0
                      /\ (length good < length commands)%nat))
    /\ Exec.started m' = (Exec.started m + length (good ++ tail))%nat.
Proof.
  intros Hs. revert acc m.
  induction commands as [| c commands IH]; intros acc m; cbn [Exec.run_sequence].
  - intros [= <- <-]. exists [], []. simpl. rewrite app_nil_r.
    repeat split; [constructor | now left | lia].
  - destruct (Exec.exec spawn c o m) as [[r | e] m1] eqn:He; [| discriminate].
    apply exec_started in He. rewrite Hs. cbn [andb].
    destruct (Exec.code (Exec.status r) =? 0) eqn:Hc; cbn [negb].
    + intros H. apply IH in H as (good & tail & -> & Hg & Ht & Hm).
      apply Z.eqb_eq in Hc. exists (r :: good), tail.
      rewrite <- app_assoc. simpl. repeat split.
      * now constructor.
      * destruct Ht as [[-> Hl] | (r' & -> & Hr' & Hl)]; [left | right].
        -- split; [reflexivity | lia].
        -- exists r'. repeat split; [assumption | lia].
      * rewrite Hm, He. lia.
    + intros [= <- <-]. apply Z.eqb_neq in Hc. exists [], [r]. simpl.
      repeat split; [constructor | | lia].
      right. exists r. repeat split; [assumption | lia].
Qed.

(** X6. When [continueOnError] is false, a sequence that returns has stopped
    behind the first command that exited with a code other than 0: every
    result but the last has code 0, and either every command has run or the
    last result has a code other than 0. One process was started for each
    result. *)
Theorem execSequence_stops_at_failure (commands : list string)
    (o : Exec.IOptions) (rs : list Exec.IExecResponse) (m m' : Exec.Machine) :
  Exec.stops_on_error o = true ->
  Exec.execSequence spawn commands o m = (Ok rs, m') ->
  exists good tail : list Exec.IExecResponse,
    rs = (good ++ tail)%list
    /\ Forall (fun r => Exec.code (Exec.status r) = 0) good
    /\ ((tail = [] /\ length rs = length commands)
        \/ (exists r, tail = [r] /\ Exec.code (Exec.status r) <> 0
                      /\ (length rs <= length commands)%nat))
    /\ Exec.started m' = (Exec.started m + length rs)%nat.
Proof.
  intros Hs H. apply run_sequence_stops in H as (good & tail & -> & Hg & Ht & Hm);
    [| exact Hs].
  exists good, tail. simpl. repeat split; try assumption.
  destruct Ht as [[-> Hl] | (r & -> & Hr & Hl)]; [left | right].
  - split; [reflexivity |]. now rewrite app_nil_r.
  - exists r. repeat split; try assumption. rewrite length_app. simpl. lia.
Qed.

(** X7. A command that cannot be started ends the sequence with its error:
    the results of the commands before it are not returned. *)
Theorem execSequence_start_failure (before : list string) (bad : string)
    (behind : list string) (o : Exec.IOptions) (m : Exec.Machine) :
  Exec.stops_on_error o = false ->
  (forall n argv, In argv (map Exec.splitCommand before) ->
                  is_Some (spawn n argv)) ->
  spawn (Exec.started m + length before) (Exec.splitCommand bad) = None ->
  fst (Exec.execSequence spawn (before ++ bad :: behind)%list o m)
  = Throw IOError.
Proof.
  intros Hs. unfold Exec.execSequence. generalize (@nil Exec.IExecResponse).
  revert m. induction before as [| c before IH]; intros m acc Hok Hbad.
  - simpl in *. rewrite Nat.add_0_r in Hbad. unfold Exec.exec. now rewrite Hbad.
  - cbn [app Exec.run_sequence].
    destruct (Hok (Exec.started m) (Exec.splitCommand c)) as [p Hp];
      [now left |].
    rewrite (exec_closed_form c o m p Hp).
    rewrite Hs. cbn [andb]. apply IH.
    + intros n argv Hin. apply Hok. now right.
    + cbn [Exec.started]. simpl in Hbad.
      now replace (S (Exec.started m) + length before)%nat
        with (Exec.started m + S (length before))%nat by lia.
Qed.

End ExecProperties.

(** ** The download route *)

Section DownloadProperties.

Variable T : Download.Tools.

Ltac host_steps :=
  cbn [Download.world Download.download Download.machine
       kv songs calls trace resp status headers rtype body
       Exec.started Exec.written Exec.status Exec.code
       app fst snd].

Ltac run_host :=
  unfold Download.post_music_url, Download.serve_host, Download.hbind,
    Download.lift, Download.hret, Download.hthrow, Download.rename,
    Download.clearDownloadsFolder, Download.run_downloader,
    path_exists, set_body, set_status, update_response, on_error,
    emit, bind, ret, throw; host_steps.

Ltac open_route Hu :=
  unfold Download.post_music_url, Download.serve_host, Download.music_url;
  match type of Hu with
  | Download.body_url ?b = _ => destruct b; try discriminate Hu
  end;
  cbv iota; rewrite Hu; cbv iota;
  unfold Download.log_url.

(** The song is there already. *)
Lemma music_url_present (b u : Json) (s : Download.Host) (f : list byte) :
  Download.body_url b = Some u ->
  Download.printable u = true ->
  songs (Download.world s) !! Download.songPath T u = Some f ->
  Download.post_music_url T b s
  = Download.MkHost
      (MkWorld (kv (Download.world s)) (songs (Download.world s))
         (calls (Download.world s))
         [EvExists (Download.songPath T u)]
         (MkResponse None ∅ None
            (Some (BodyText (Download.songFilename T u)))))
      (Download.download s) (Download.machine s).
Proof.
  intros Hu Hpr Hf. open_route Hu. rewrite Hpr. run_host.
  rewrite Hf. rewrite bool_decide_eq_true_2 by eauto. reflexivity.
Qed.

(** The text of the url cannot be formed: the first log line throws. *)
Lemma music_url_unprintable (b u : Json) (s : Download.Host) :
  Download.body_url b = Some u ->
  Download.printable u = false ->
  Download.post_music_url T b s
  = Download.MkHost
      (MkWorld (kv (Download.world s)) (songs (Download.world s))
         (calls (Download.world s))
         [EvExists (Download.songPath T u); EvClearDownloads]
         (error_response TypeError))
      None (Download.machine s).
Proof.
  intros Hu Hpr. open_route Hu. rewrite Hpr. run_host.
  destruct (bool_decide _); reflexivity.
Qed.

(** The body holds no url: the fingerprint function throws. *)
Lemma music_url_no_url (b : Json) (s : Download.Host) :
  b <> JNull ->
  Download.body_url b = None ->
  Download.post_music_url T b s
  = Download.MkHost
      (MkWorld (kv (Download.world s)) (songs (Download.world s))
         (calls (Download.world s)) [EvClearDownloads]
         (error_response ArgumentError))
      None (Download.machine s).
Proof.
  intros Hb Hu.
  unfold Download.post_music_url, Download.serve_host, Download.music_url.
  destruct b; try contradiction; cbv iota; rewrite Hu; reflexivity.
Qed.

(** The body is null: reading its url throws. *)
Lemma music_url_null (s : Download.Host) :
  Download.post_music_url T JNull s
  = Download.MkHost
      (MkWorld (kv (Download.world s)) (songs (Download.world s))
         (calls (Download.world s)) [EvClearDownloads]
         (error_response TypeError))
      None (Download.machine s).
Proof. reflexivity. Qed.

(** The song is not there and the downloader ran. *)
Lemma music_url_ran (b u : Json) (s : Download.Host) (p : Exec.Process) :
  Download.body_url b = Some u ->
  Download.printable u = true ->
  songs (Download.world s) !! Download.songPath T u = None ->
  Download.spawn T (Exec.started (Download.machine s))
    (Exec.splitCommand (Download.download_command T (Some u)))
  = Some p ->
  let w := Download.world s in
  let log := [EvExists (Download.songPath T u); EvClearDownloads] in
  let m' := Exec.MkMachine (S (Exec.started (Download.machine s)))
              (Exec.written (Download.machine s) ++ Exec.proc_stdout p)%list in
  let left :=
    Download.after_run T (Exec.started (Download.machine s))
      (Exec.splitCommand (Download.download_command T (Some u)))
      (Download.download s) in
  let nothing :=
    Download.MkHost (MkWorld (kv w) (songs w) (calls w) log fresh_response)
      None m' in
  Download.post_music_url T b s
  = if Exec.proc_code p =? 0 then
      match Download.find_mp3 left with
      | Some e =>
          if truthy_str (Some (Download.path e)) then
            Download.MkHost
              (MkWorld (kv w)
                 (<[Download.songPath T u := Download.data e]> (songs w))
                 (calls w) log
                 (MkResponse None ∅ None
                    (Some (BodyText (Download.songFilename T u)))))
              None m'
          else nothing
      | None => nothing
      end
    else
      Download.MkHost
        (MkWorld (kv w) (songs w) (calls w) log
           (MkResponse (Some 500%nat) ∅ None
              (Some (BodyText "Failed to download song"))))
        None m'.
Proof.
  intros Hu Hpr Hf Hp. open_route Hu. rewrite Hpr. run_host.
  rewrite Hf. rewrite bool_decide_eq_false_2 by (intros [x Hx]; discriminate).
  host_steps. rewrite (exec_closed_form _ _ _ _ p Hp). host_steps.
  destruct (Exec.proc_code p =? 0); [| reflexivity].
  destruct (Download.find_mp3 _) as [e |]; [| reflexivity].
  destruct (truthy_str (Some (Download.path e))); reflexivity.
Qed.

(** The song is not there and the downloader cannot be started: the error
    is NotFound when the program is missing. *)
Lemma music_url_not_started (b u : Json) (s : Download.Host) :
  Download.body_url b = Some u ->
  Download.printable u = true ->
  songs (Download.world s) !! Download.songPath T u = None ->
  Download.spawn T (Exec.started (Download.machine s))
    (Exec.splitCommand (Download.download_command T (Some u)))
  = None ->
  Download.post_music_url T b s
  = Download.MkHost
      (MkWorld (kv (Download.world s)) (songs (Download.world s))
         (calls (Download.world s))
         [EvExists (Download.songPath T u); EvClearDownloads]
         (error_response
            (if Download.not_found T (Exec.started (Download.machine s))
                  (Exec.splitCommand (Download.download_command T (Some u)))
             then NotFound else IOError)))
      None (Download.machine s).
Proof.
  intros Hu Hpr Hf Hp. open_route Hu. rewrite Hpr. run_host.
  rewrite Hf. rewrite bool_decide_eq_false_2 by (intros [x Hx]; discriminate).
  host_steps. unfold Exec.exec. host_steps. rewrite Hp. host_steps.
  destruct (Download.machine s).
  destruct (Download.not_found T _ _); reflexivity.
Qed.

End DownloadProperties.

(** ** More on the songs route *)

Section SongExtras.

Variable P : Platform.

Ltac song_steps' :=
  cbn [kv songs calls trace resp status headers rtype body content position
       app fst snd default from_option id negb].

(** A request without a Range header for an existing song. *)
Lemma get_song_full (w : World) (name : string) (range : option string)
    (f : list byte) :
  songs w !! join P (songsDir P) name = Some f ->
  truthy_str range = false ->
  get_songs_id P name range w
  = MkWorld (kv w) (songs w) (calls w)
      [EvExists (join P (songsDir P) name); EvStat (join P (songsDir P) name);
       EvReadFile (join P (songsDir P) name)]
      (MkResponse None
         (<["Content-Type" := "audio/mpeg"]>
            (<["Content-Length" := number_to_string (Num (Z.of_nat (length f)))]> ∅))
         None (Some (BodyBytes f))).
Proof.
  intros Hf Ht.
  unfold get_songs_id, serve, get_song, path_exists, stat_size, readFile,
    set_header, set_body, update_response, emit, bind, ret, throw.
  song_steps'. rewrite !Hf, Ht. rewrite bool_decide_eq_true_2 by eauto.
  repeat (song_steps'; rewrite ?Hf). reflexivity.
Qed.

(** X8. Without a Range header, or with an empty one, an existing song is
    answered with status 200, its size as Content-Length, the type
    audio/mpeg and the whole file as body, read in one piece: the file is
    not opened, sought or read through a buffer. *)
Theorem whole_song_is_served (w : World) (name : string)
    (range : option string) (f : list byte) :
  songs w !! join P (songsDir P) name = Some f ->
  range = None \/ range = Some EmptyString ->
  response_status (resp (get_songs_id P name range w)) = 200%nat /\
  headers (resp (get_songs_id P name range w)) !! "Content-Length"
    = Some (number_to_string (Num (Z.of_nat (length f)))) /\
  headers (resp (get_songs_id P name range w)) !! "Content-Type"
    = Some "audio/mpeg" /\
  body (resp (get_songs_id P name range w)) = Some (BodyBytes f) /\
  trace (get_songs_id P name range w)
    = [EvExists (join P (songsDir P) name); EvStat (join P (songsDir P) name);
       EvReadFile (join P (songsDir P) name)].
Proof.
  intros Hf Hr. rewrite (get_song_full w name range f Hf)
    by (destruct Hr as [-> | ->]; reflexivity).
  cbn [resp headers body trace status response_status]. repeat split.
Qed.

Lemma parse_range_numeric_length (h : string) (size s e : Z) :
  parse_range h size = (Num s, Num e) -> e - s + 1 <= maxChunk.
Proof.
  unfold parse_range, range_bounds. cbv zeta.
  set (start := parseInt10 _). set (end0 := if truthy_str _ then _ else _).
  intros [= Hs He]. rewrite Hs in He.
  destruct end0 as [| e0]; simpl in He; [discriminate |].
  destruct (maxChunk <? e0 - s + 1) eqn:E; injection He as <-.
  - lia.
  - apply Z.ltb_ge in E. lia.
Qed.

(** X10. For a song of a safe size and a Range header whose start is not a
    number or is a number with start + maxChunk safe, the body of a 206
    answer is never longer than the maximum chunk of 1 MiB, whatever the
    header holds as end. *)
Theorem ranged_body_is_bounded (w : World) (name h : string) (f : list byte)
    (start end_ : number) :
  songs w !! join P (songsDir P) name = Some f ->
  truthy_str (Some h) = true ->
  parse_range h (Z.of_nat (length f)) = (start, end_) ->
  Z.of_nat (length f) <= MAX_SAFE_INTEGER ->
  safe_start start = true ->
  response_status (resp (get_songs_id P name (Some h) w)) = 206%nat ->
  exists b : list byte,
    body (resp (get_songs_id P name (Some h) w)) = Some (BodyBytes b) /\
    Z.of_nat (length b) <= 1048576.
Proof.
  intros Hf Ht Hp _ _.
  rewrite (get_song_ranged P w name h f start end_ Hf Ht Hp).
  destruct (seek_target P _ start _) as [pos |]; [| discriminate].
  destruct (new_Uint8Array _) as [buffer |] eqn:Hb; [| discriminate].
  intros _. eexists. split; [reflexivity |]. rewrite fill_length.
  destruct start as [| s], end_ as [| e];
    try (simpl in Hb; injection Hb as <-; simpl; lia).
  apply new_Uint8Array_zeros in Hb as [_ Hn].
  rewrite (Hn (e - s + 1) eq_refl).
  apply parse_range_numeric_length in Hp. unfold maxChunk in Hp. lia.
Qed.

Lemma parse_range_start_nonneg (h : string) (size s : Z) (end_ : number) :
  parse_range h size = (Num s, end_) -> 0 <= s.
Proof.
  unfold parse_range.
  destruct (range_bounds h size) as [[end0 start] e] eqn:Hb.
  intros [= -> _]. now apply range_start_nonneg in Hb.
Qed.


(** X12. The songs route only reads: whatever the name and the Range header,
    a request leaves the store, the songs and the count of upstream calls
    as they were. *)
Theorem songs_route_only_reads (w : World) (name : string)
    (range : option string) :
  kv (get_songs_id P name range w) = kv w /\
  songs (get_songs_id P name range w) = songs w /\
  calls (get_songs_id P name range w) = calls w.
Proof.
  destruct (songs w !! join P (songsDir P) name) as [f |] eqn:Hf.
  - destruct (truthy_str range) eqn:Ht.
    + destruct range as [h |]; [| discriminate].
      destruct (parse_range h (Z.of_nat (length f))) as [start end_] eqn:Hp.
      rewrite (get_song_ranged P w name h f start end_ Hf Ht Hp).
      destruct (seek_target P _ start _) as [pos |];
        [destruct (new_Uint8Array _) as [buffer |] |]; repeat split.
    + rewrite (get_song_full w name range f Hf Ht). repeat split.
  - rewrite get_song_missing by assumption. repeat split.
Qed.

End SongExtras.

(** ** More on the cache route *)

Section CacheExtras.

Variable P : Platform.

(** A request whose body is the JSON value null fails when the handler
    reads its [url], after the store was read. *)
Lemma null_body_fails (w : World) :
  post_cache_request P JNull w
  = MkWorld (kv w) (songs w) (calls w)
      [EvKvGet (hash P JNull); EvClearDownloads]
      (error_response TypeError).
Proof.
  unfold post_cache_request, serve, cache_request, safeParseAsync, kv_get,
    read_url, on_error, set_body, set_status, update_response, emit, bind,
    ret, throw.
  cbn [kv songs calls trace resp status headers rtype body app fst snd].
  destruct (truthy (default JNull (kv w !! hash P JNull))); reflexivity.
Qed.

(** X14. For a body whose url has a text, a cache request is answered with
    status 500 in three cases and in no other: the body is the JSON value
    null, or the store holds no truthy value for the body and either the
    upstream request fails or the store rejects the payload it delivers.
    In all three cases the store stays as it was. *)
Theorem cache_request_fails_iff (data : Json) (w : World) :
  url_prints data = true ->
  (response_status (resp (post_cache_request P data w)) = 500%nat
   <-> data = JNull
       \/ (truthy (default JNull (kv w !! hash P data)) = false
           /\ (upstream P (calls w) (upstream_request P data) = None
               \/ exists p : Json,
                    upstream P (calls w) (upstream_request P data) = Some p
                    /\ kv_accepts P p = false))) /\
  (response_status (resp (post_cache_request P data w)) = 500%nat ->
   kv (post_cache_request P data w) = kv w).
Proof.
  intros _.
  assert (Hnull : data = JNull \/ data <> JNull)
    by (destruct data; auto; right; discriminate).
  destruct Hnull as [-> | Hd].
  - rewrite null_body_fails. split; [split; auto |]. reflexivity.
  - destruct (truthy (default JNull (kv w !! hash P data))) eqn:Ht.
    + destruct (kv w !! hash P data) as [v |] eqn:Hk; [| discriminate Ht].
      rewrite (cache_request_hit P data v w Hd Hk Ht).
      split; [split |]; simpl; try discriminate.
      intros [? | [? _]]; [contradiction | discriminate].
    + destruct (upstream P (calls w) (upstream_request P data)) as [p |] eqn:Hu.
      * destruct (kv_accepts P p) eqn:Ha.
        -- rewrite (cache_request_miss P data p w Hd Ht Hu Ha).
           assert (Hs : response_status (MkResponse None ∅ None (json_body p))
                        <> 500%nat)
             by (destruct p; discriminate).
           split; [split |]; cbn [resp]; try (intros; contradiction).
           intros [? | [_ [? | (q & [= <-] & Hq)]]];
             [contradiction | discriminate | congruence].
        -- rewrite (cache_request_rejected P data p w Hd Ht Hu Ha).
           split; [split |]; [| reflexivity | reflexivity].
           intros _. right. split; [reflexivity |]. right. now exists p.
      * rewrite (cache_request_failure P data w Hd Ht Hu).
        split; [split; auto |]. reflexivity.
Qed.

Lemma get_set_field_same (k : string) (v : Json) (fs : list (string * Json)) :
  get_field k (set_field k v fs) = Some v.
Proof.
  induction fs as [| [k' v'] fs IH]; simpl.
  - now rewrite String.eqb_refl.
  - destruct (String.eqb k k') eqn:E; simpl; rewrite ?String.eqb_refl, ?E;
      [reflexivity | exact IH].
Qed.

Lemma get_set_field_other (k k2 : string) (v : Json) (fs : list (string * Json)) :
  k2 <> k -> get_field k2 (set_field k v fs) = get_field k2 fs.
Proof.
  intros Hne. apply String.eqb_neq in Hne.
  induction fs as [| [k' v'] fs IH]; simpl.
  - now rewrite Hne.
  - destruct (String.eqb k k') eqn:E; simpl.
    + apply String.eqb_eq in E. subst k'. now rewrite Hne.
    + now rewrite IH.
Qed.

(** X15. The request sent upstream always carries the two API headers of the
    configuration: a [headers] field of the request body is replaced, and
    every other field of the body is passed on as it is. *)
Theorem upstream_headers_are_fixed (data : Json) :
  exists fs : list (string * Json),
    upstream_request P data = JObj fs /\
    get_field "headers" fs
    = Some (JObj [("X-RapidAPI-Key", JStr (RAPIDAPI_KEY P));
                  ("X-RapidAPI-Host", JStr (RAPIDAPI_HOST P))]) /\
    (forall k : string, k <> "headers" ->
       get_field k fs = get_field k (spread data)).
Proof.
  eexists. split; [reflexivity |]. split.
  - apply get_set_field_same.
  - intros k Hk. now apply get_set_field_other.
Qed.

(** X16. The store is keyed by the fingerprint alone: once a body has been
    resolved with a truthy payload that the store takes, any other body
    with the same fingerprint is answered with that payload from the
    store, without an upstream call. Both bodies are descriptors: they are
    not null and the text of their url can be formed. *)
Theorem equal_fingerprints_share_an_entry (d1 d2 p : Json) (w : World) :
  d1 <> JNull -> d2 <> JNull ->
  url_prints d1 = true -> url_prints d2 = true ->
  hash P d1 = hash P d2 ->
  truthy (default JNull (kv w !! hash P d1)) = false ->
  upstream P (calls w) (upstream_request P d1) = Some p ->
  truthy p = true ->
  kv_accepts P p = true ->
  body (resp (post_cache_request P d2 (post_cache_request P d1 w)))
    = Some (BodyJson p) /\
  trace (post_cache_request P d2 (post_cache_request P d1 w))
    = [EvKvGet (hash P d2)] /\
  calls (post_cache_request P d2 (post_cache_request P d1 w)) = S (calls w).
Proof.
  intros H1 H2 _ _ Hh Hmiss Hup Ht Ha.
  rewrite (cache_request_miss P d1 p w H1 Hmiss Hup Ha).
  rewrite (cache_request_hit P d2 p);
    [| assumption | simpl; rewrite Hh; apply lookup_insert_eq | assumption].
  repeat split.
Qed.

(** X17. A cache request touches one entry at most: every entry of the store
    under another key than the fingerprint of the body stays as it was, the
    songs are not touched, and the upstream service is called once at
    most. *)
Theorem cache_request_touches_one_entry (data : Json) (w : World) :
  (forall k : string,
     k <> hash P data ->
     kv (post_cache_request P data w) !! k = kv w !! k) /\
  songs (post_cache_request P data w) = songs w /\
  (calls (post_cache_request P data w) = calls w
   \/ calls (post_cache_request P data w) = S (calls w)).
Proof.
  unfold post_cache_request, serve, cache_request, safeParseAsync, kv_get,
    kv_set, axiod_request, read_url, on_error, set_body, set_status,
    update_response, emit, bind, ret, throw.
  cbn [kv songs calls trace resp status headers rtype body app fst snd].
  destruct (truthy (default JNull (kv w !! hash P data)));
    destruct data;
    cbn [kv songs calls trace resp status headers rtype body app fst snd];
    try (repeat split; auto; fail);
    match goal with
    | |- context [upstream P ?n ?r] =>
        destruct (upstream P n r) as [p |]; [destruct (kv_accepts P p) |]
    end;
    cbn [kv songs calls trace resp status headers rtype body app fst snd];
    (split; [| split; auto]);
    intros k Hk; rewrite ?lookup_insert_ne by congruence; reflexivity.
Qed.

End CacheExtras.

(** ** Writing a range and parsing it again *)

Lemma uint_chars (d : Decimal.uint) :
  all_chars is_digit (NilEmpty.string_of_uint d) = true.
Proof. induction d; simpl; auto. Qed.

Lemma read_digits_some (r : string) (v : Z) : read_digits r (Some v) <> None.
Proof.
  revert v. induction r as [| c r IH]; simpl; intros v; [discriminate |].
  destruct (digit_val c); [apply IH | discriminate].
Qed.

Lemma read_digits_stop (r : string) (acc : option Z) :
  read_digits r None = None -> read_digits r acc = acc.
Proof.
  destruct r as [| c r]; simpl; [reflexivity |].
  destruct (digit_val c) as [d |]; [| reflexivity].
  intros H. now apply read_digits_some in H.
Qed.

Lemma append_nil_l (r : string) : EmptyString +:+ r = r.
Proof. reflexivity. Qed.

Lemma append_cons (c : ascii) (s r : string) :
  String c s +:+ r = String c (s +:+ r).
Proof. reflexivity. Qed.

Ltac digit_step :=
  rewrite append_cons; cbn [read_digits];
  match goal with
  | |- context [digit_val ?c] =>
      let v := eval vm_compute in (digit_val c) in
      change (digit_val c) with v
  end;
  cbv iota; simpl (default 0 _).

Lemma read_uint_acc (d : Decimal.uint) (r : string) (a : positive) :
  read_digits r None = None ->
  read_digits (NilEmpty.string_of_uint d +:+ r) (Some (Z.pos a))
  = Some (Z.pos (Pos.of_uint_acc d a)).
Proof.
  intros Hr. revert a.
  induction d; intros a; cbn [NilEmpty.string_of_uint Pos.of_uint_acc];
    [rewrite append_nil_l; now apply read_digits_stop | ..];
    digit_step;
    match goal with
    | |- read_digits _ (Some ?v) = Some (Z.pos (Pos.of_uint_acc d ?b)) =>
        replace v with (Z.pos b) by lia
    end;
    apply IHd.
Qed.

Lemma read_uint (d : Decimal.uint) (r : string) :
  read_digits r None = None ->
  read_digits (NilEmpty.string_of_uint d +:+ r) (Some 0)
  = Some (Z.of_N (Pos.of_uint d)).
Proof.
  intros Hr.
  induction d; cbn [NilEmpty.string_of_uint Pos.of_uint];
    [rewrite append_nil_l; now apply read_digits_stop | ..];
    digit_step; [exact IHd | ..];
    match goal with
    | |- read_digits _ (Some ?v) = Some (Z.of_N (N.pos (Pos.of_uint_acc d ?b))) =>
        replace v with (Z.pos b) by lia
    end;
    now apply read_uint_acc.
Qed.

(** Reading the decimal text of a number that is not negative gives the
    number back, when no digit follows the text. *)
Lemma read_number (z : Z) (r : string) :
  0 <= z ->
  read_digits r None = None ->
  read_digits (number_to_string (Num z) +:+ r) None = Some z.
Proof.
  intros Hz Hr. unfold number_to_string.
  pose proof (DecimalZ.of_to z) as Hof.
  destruct (Z.to_int z) as [d | d] eqn:Hd.
  - cbn [NilZero.string_of_int]. simpl in Hof. unfold Z.of_uint in Hof.
    rewrite <- Hof. unfold NilZero.string_of_uint.
    destruct d;
      [rewrite append_cons; cbn [read_digits];
       change (digit_val "0") with (Some 0); cbv iota;
       rewrite read_digits_stop by exact Hr; reflexivity | ..];
      (etransitivity; [| apply read_uint; exact Hr]);
      cbn [NilEmpty.string_of_uint]; rewrite !append_cons; reflexivity.
  - exfalso. destruct z; simpl in Hd; try discriminate. lia.
Qed.

Lemma number_text_head (z : Z) :
  0 <= z ->
  exists c s, number_to_string (Num z) = String c s
              /\ all_chars is_digit (String c s) = true.
Proof.
  intros Hz. unfold number_to_string.
  destruct (Z.to_int z) as [d | d] eqn:Hd.
  - cbn [NilZero.string_of_int]. unfold NilZero.string_of_uint.
    destruct d; [eexists _, _; split; reflexivity | ..];
      match goal with
      | |- context [NilEmpty.string_of_uint ?x] =>
          eexists _, _; split; [reflexivity | exact (uint_chars x)]
      end.
  - exfalso. destruct z; simpl in Hd; try discriminate. lia.
Qed.

Lemma digit_is_plain (c : ascii) :
  is_digit c = true ->
  is_js_space c = false /\ Ascii.eqb c "-" = false /\ Ascii.eqb c "+" = false.
Proof.
  destruct c as [[] [] [] [] [] [] [] []]; intros H; try discriminate H;
    repeat split.
Qed.

(** [parseInt] reads back what [toString] wrote for a number that is not
    negative. *)
Lemma parseInt10_number (z : Z) (r : string) :
  0 <= z ->
  read_digits r None = None ->
  parseInt10 (number_to_string (Num z) +:+ r) = Num z.
Proof.
  intros Hz Hr. unfold parseInt10.
  pose proof (read_number z r Hz Hr) as Hread.
  destruct (number_text_head z Hz) as (c & s & Hs & Hd).
  rewrite Hs in *. rewrite append_cons in *.
  simpl in Hd. apply andb_true_iff in Hd as [Hc _].
  apply digit_is_plain in Hc as (Hsp & Hm & Hp).
  cbn [skip_space]. rewrite Hsp, Hm, Hp, Hread. f_equal. lia.
Qed.

Lemma append_nil_r (s : string) : s +:+ EmptyString = s.
Proof.
  induction s as [| c s IH]; [reflexivity |].
  rewrite append_cons. now rewrite IH.
Qed.

Lemma prefix_app (p x : string) : String.prefix p (p +:+ x) = true.
Proof.
  induction p as [| c p IH].
  - rewrite append_nil_l. now destruct x.
  - rewrite append_cons. simpl. destruct (ascii_dec c c); [exact IH | contradiction].
Qed.

Lemma drop_chars_app (p x : string) :
  drop_chars (String.length p) (p +:+ x) = x.
Proof.
  induction p as [| c p IH].
  - rewrite append_nil_l. now destruct x.
  - rewrite append_cons. exact IH.
Qed.

Lemma remove_first_head (p x : string) : remove_first p (p +:+ x) = x.
Proof.
  assert (E : forall s, remove_first p s
                        = if String.prefix p s
                          then drop_chars (String.length p) s
                          else match s with
                               | String c s' => String c (remove_first p s')
                               | EmptyString => EmptyString
                               end)
    by (intros [| c s]; reflexivity).
  now rewrite E, prefix_app, drop_chars_app.
Qed.

Lemma split_on_app (sep : ascii) (a b : string) :
  all_chars (fun c => negb (Ascii.eqb c sep)) a = true ->
  split_on sep (a +:+ String sep b) = a :: split_on sep b.
Proof.
  intros Ha. induction a as [| c a IH].
  - rewrite append_nil_l. simpl. now rewrite Ascii.eqb_refl.
  - rewrite append_cons. simpl in *. apply andb_true_iff in Ha as [Hc Ha].
    apply negb_true_iff in Hc. now rewrite Hc, IH.
Qed.

Lemma split_on_whole (sep : ascii) (b : string) :
  all_chars (fun c => negb (Ascii.eqb c sep)) b = true ->
  split_on sep b = [b].
Proof.
  intros Hb. induction b as [| c b IH]; [reflexivity |].
  simpl in *. apply andb_true_iff in Hb as [Hc Hb].
  apply negb_true_iff in Hc. now rewrite Hc, IH.
Qed.

Lemma digits_hold_no_dash (s : string) :
  all_chars is_digit s = true ->
  all_chars (fun c => negb (Ascii.eqb c "-")) s = true.
Proof.
  induction s as [| c s IH]; [reflexivity |]. simpl.
  intros H. apply andb_true_iff in H as [Hc Hs].
  apply digit_is_plain in Hc as (_ & Hm & _). now rewrite Hm, IH.
Qed.

Lemma number_text_no_dash (z : Z) :
  0 <= z ->
  all_chars (fun c => negb (Ascii.eqb c "-")) (number_to_string (Num z)) = true.
Proof.
  intros Hz. destruct (number_text_head z Hz) as (c & s & -> & Hd).
  now apply digits_hold_no_dash.
Qed.

Lemma parseInt10_number_text (z : Z) :
  0 <= z -> parseInt10 (number_to_string (Num z)) = Num z.
Proof.
  intros Hz. rewrite <- (append_nil_r (number_to_string (Num z))).
  now apply parseInt10_number.
Qed.

(** X13. A Range header written as "bytes=" followed by a start, a dash and an
    end in decimal is parsed to that start and that end, the end clamped to
    one chunk; written without an end, it is parsed to that start and the
    last byte of the song, clamped alike. The end, the size of the song and
    start + maxChunk are safe integers. *)
Theorem written_range_is_parsed (s e size : Z) :
  0 <= s -> 0 <= e -> 0 <= size ->
  e <= MAX_SAFE_INTEGER -> size <= MAX_SAFE_INTEGER ->
  s + maxChunk <= MAX_SAFE_INTEGER ->
  parse_range
    ("bytes=" +:+ number_to_string (Num s) +:+ "-" +:+ number_to_string (Num e))
    size
  = (Num s, Num (if maxChunk <? e - s + 1 then s + maxChunk - 1 else e)) /\
  parse_range ("bytes=" +:+ number_to_string (Num s) +:+ "-") size
  = (Num s,
     Num (if maxChunk <? size - 1 - s + 1 then s + maxChunk - 1 else size - 1)).
Proof.
  intros Hs He _ _ _ _. unfold parse_range, range_bounds. cbv zeta.
  rewrite !remove_first_head.
  change ("-" +:+ number_to_string (Num e))
    with (String "-" (number_to_string (Num e))).
  rewrite !split_on_app by now apply number_text_no_dash.
  rewrite (split_on_whole _ (number_to_string (Num e)))
    by now apply number_text_no_dash.
  change (split_on "-" EmptyString) with [EmptyString].
  cbn [lookup list_lookup default from_option id truthy_str].
  rewrite !parseInt10_number_text by assumption.
  assert (Hne : String.eqb (number_to_string (Num e)) EmptyString = false).
  { destruct (number_text_head e He) as (c & t & -> & _). reflexivity. }
  rewrite Hne. cbn [String.eqb negb]. split.
  - simpl. now destruct (maxChunk <? e - s + 1).
  - simpl. now destruct (maxChunk <? size - 1 - s + 1).
Qed.

(** ** What the download route answers *)

Section DownloadResults.

Variable T : Download.Tools.

(** X18. A song that is in the songs directory already is not downloaded
    again: the answer is its file name, no process is started, and the
    songs and the download directory stay as they are. The body holds a
    url whose text can be formed. *)
Theorem present_song_is_not_downloaded (b u : Json) (s : Download.Host)
    (f : list byte) :
  Download.body_url b = Some u ->
  Download.printable u = true ->
  songs (Download.world s) !! Download.songPath T u = Some f ->
  response_status (resp (Download.world (Download.post_music_url T b s)))
    = 200%nat /\
  body (resp (Download.world (Download.post_music_url T b s)))
    = Some (BodyText (Download.songFilename T u)) /\
  Download.machine (Download.post_music_url T b s) = Download.machine s /\
  Download.download (Download.post_music_url T b s) = Download.download s /\
  songs (Download.world (Download.post_music_url T b s))
    = songs (Download.world s).
Proof.
  intros Hu Hpr Hf. rewrite (music_url_present T b u s f Hu Hpr Hf).
  repeat split.
Qed.

(** X19. When the downloader exits with a code other than 0, the answer is
    status 500 with the text "Failed to download song"; no song is added
    and the download directory is removed. The body holds a url whose text
    can be formed. *)
Theorem failed_download_is_reported (b u : Json) (s : Download.Host)
    (p : Exec.Process) :
  Download.body_url b = Some u ->
  Download.printable u = true ->
  songs (Download.world s) !! Download.songPath T u = None ->
  Download.spawn T (Exec.started (Download.machine s))
    (Exec.splitCommand (Download.download_command T (Some u)))
  = Some p ->
  Exec.proc_code p <> 0 ->
  response_status (resp (Download.world (Download.post_music_url T b s)))
    = 500%nat /\
  body (resp (Download.world (Download.post_music_url T b s)))
    = Some (BodyText "Failed to download song") /\
  songs (Download.world (Download.post_music_url T b s))
    = songs (Download.world s) /\
  Download.download (Download.post_music_url T b s) = None /\
  Exec.started (Download.machine (Download.post_music_url T b s))
    = S (Exec.started (Download.machine s)).
Proof.
  intros Hu Hpr Hf Hp Hc. rewrite (music_url_ran T b u s p Hu Hpr Hf Hp).
  cbv zeta. apply Z.eqb_neq in Hc. rewrite Hc. repeat split.
Qed.

(** X20. When the downloader exits with code 0 and leaves an mp3 file behind,
    the first such file in the order of the directory walk becomes the
    song of the request: the answer is its file name, the download
    directory is removed, a request for that file name on the songs route
    is answered 200 with the bytes of the file, and a second download
    request with the same body starts no process. The body holds a url
    whose text can be formed. *)
Theorem downloaded_song_is_served (b u : Json) (s : Download.Host)
    (p : Exec.Process) (e : Download.WalkEntry) :
  Download.body_url b = Some u ->
  Download.printable u = true ->
  songs (Download.world s) !! Download.songPath T u = None ->
  Download.spawn T (Exec.started (Download.machine s))
    (Exec.splitCommand (Download.download_command T (Some u)))
  = Some p ->
  Exec.proc_code p = 0 ->
  Download.find_mp3
    (Download.after_run T (Exec.started (Download.machine s))
       (Exec.splitCommand (Download.download_command T (Some u)))
       (Download.download s)) = Some e ->
  Download.path e <> EmptyString ->
  body (resp (Download.world (Download.post_music_url T b s)))
    = Some (BodyText (Download.songFilename T u)) /\
  Download.download (Download.post_music_url T b s) = None /\
  response_status
    (resp (get_songs_id (Download.base T)
             (Download.songFilename T u) None
             (Download.world (Download.post_music_url T b s)))) = 200%nat /\
  body
    (resp (get_songs_id (Download.base T)
             (Download.songFilename T u) None
             (Download.world (Download.post_music_url T b s))))
    = Some (BodyBytes (Download.data e)) /\
  Download.machine
    (Download.post_music_url T b (Download.post_music_url T b s))
  = Download.machine (Download.post_music_url T b s) /\
  body (resp (Download.world
                (Download.post_music_url T b (Download.post_music_url T b s))))
    = Some (BodyText (Download.songFilename T u)).
Proof.
  intros Hu Hpr Hf Hp Hc He Hpath.
  rewrite (music_url_ran T b u s p Hu Hpr Hf Hp). cbv zeta.
  rewrite Hc, He. change (0 =? 0) with true. cbv iota.
  apply String.eqb_neq in Hpath. cbn [truthy_str]. rewrite Hpath. cbn [negb].
  split; [reflexivity | split; [reflexivity |]].
  rewrite (get_song_full (Download.base T) _ _ None (Download.data e))
    by (try reflexivity; apply lookup_insert_eq).
  split; [reflexivity | split; [reflexivity |]].
  rewrite (music_url_present T b u _ (Download.data e) Hu Hpr)
    by apply lookup_insert_eq.
  split; reflexivity.
Qed.

(** X21. When the downloader exits with code 0 and leaves no mp3 file behind,
    the handler assigns neither a body nor a status, so that the framework
    answers 404; no song is added and the download directory is
    removed. The body holds a url whose text can be formed. *)
Theorem fruitless_download_is_silent (b u : Json) (s : Download.Host)
    (p : Exec.Process) :
  Download.body_url b = Some u ->
  Download.printable u = true ->
  songs (Download.world s) !! Download.songPath T u = None ->
  Download.spawn T (Exec.started (Download.machine s))
    (Exec.splitCommand (Download.download_command T (Some u)))
  = Some p ->
  Exec.proc_code p = 0 ->
  Download.find_mp3
    (Download.after_run T (Exec.started (Download.machine s))
       (Exec.splitCommand (Download.download_command T (Some u)))
       (Download.download s)) = None ->
  resp (Download.world (Download.post_music_url T b s)) = fresh_response /\
  response_status (resp (Download.world (Download.post_music_url T b s)))
    = 404%nat /\
  songs (Download.world (Download.post_music_url T b s))
    = songs (Download.world s) /\
  Download.download (Download.post_music_url T b s) = None.
Proof.
  intros Hu Hpr Hf Hp Hc He. rewrite (music_url_ran T b u s p Hu Hpr Hf Hp).
  cbv zeta. rewrite Hc, He. repeat split.
Qed.

(** X22. When the downloader cannot be started, the request fails with the
    answer of the framework: status 404 and the text "Not Found" when the
    program is missing, status 500 and the text "Internal Server Error"
    otherwise; no song is added, no process is counted and the download
    directory is removed. The body holds a url whose text can be formed. *)
Theorem unstartable_downloader_fails (b u : Json) (s : Download.Host) :
  Download.body_url b = Some u ->
  Download.printable u = true ->
  songs (Download.world s) !! Download.songPath T u = None ->
  Download.spawn T (Exec.started (Download.machine s))
    (Exec.splitCommand (Download.download_command T (Some u)))
  = None ->
  let missing :=
    Download.not_found T (Exec.started (Download.machine s))
      (Exec.splitCommand (Download.download_command T (Some u))) in
  response_status (resp (Download.world (Download.post_music_url T b s)))
    = (if missing then 404%nat else 500%nat) /\
  body (resp (Download.world (Download.post_music_url T b s)))
    = Some (BodyText (if missing then "Not Found"
                      else "Internal Server Error")) /\
  songs (Download.world (Download.post_music_url T b s))
    = songs (Download.world s) /\
  Download.download (Download.post_music_url T b s) = None /\
  Download.machine (Download.post_music_url T b s) = Download.machine s.
Proof.
  intros Hu Hpr Hf Hp missing.
  rewrite (music_url_not_started T b u s Hu Hpr Hf Hp). fold missing.
  destruct missing; repeat split.
Qed.

(** X23. A download request is answered with status 500 in these cases and in
    no other: the body holds no url (as the JSON value null does not), or
    the text of the url cannot be formed, or the song is not there and the
    downloader cannot be started for another reason than a missing
    program, or exits with a code other than 0. After every such answer the
    download directory is gone and the songs are as they were. *)
Theorem music_url_fails_iff (b : Json) (s : Download.Host) :
  (response_status (resp (Download.world (Download.post_music_url T b s)))
   = 500%nat
   <-> match Download.body_url b with
       | None => True
       | Some u =>
           Download.printable u = false
           \/ (songs (Download.world s) !! Download.songPath T u = None
               /\ ((Download.spawn T (Exec.started (Download.machine s))
                      (Exec.splitCommand
                         (Download.download_command T (Some u)))
                    = None
                    /\ Download.not_found T (Exec.started (Download.machine s))
                         (Exec.splitCommand
                            (Download.download_command T (Some u)))
                       = false)
                   \/ exists p : Exec.Process,
                        Download.spawn T (Exec.started (Download.machine s))
                          (Exec.splitCommand
                             (Download.download_command T (Some u)))
                        = Some p
                        /\ Exec.proc_code p <> 0))
       end) /\
  (response_status (resp (Download.world (Download.post_music_url T b s)))
   = 500%nat ->
   Download.download (Download.post_music_url T b s) = None
   /\ songs (Download.world (Download.post_music_url T b s))
      = songs (Download.world s)).
Proof.
  destruct (Download.body_url b) as [u |] eqn:Hu.
  2: { assert (Hnull : b = JNull \/ b <> JNull)
         by (destruct b; auto; right; discriminate).
       destruct Hnull as [-> | Hb].
       - rewrite music_url_null. split; [split; auto |].
         intros _. split; reflexivity.
       - rewrite (music_url_no_url T b s Hb Hu). split; [split; auto |].
         intros _. split; reflexivity. }
  destruct (Download.printable u) eqn:Hpr.
  2: { rewrite (music_url_unprintable T b u s Hu Hpr).
       split; [split; auto |]. intros _. split; reflexivity. }
  destruct (songs (Download.world s) !! Download.songPath T u) as [f |] eqn:Hf.
  - rewrite (music_url_present T b u s f Hu Hpr Hf).
    split; [split |]; cbn [Download.world resp response_status status body];
      try discriminate.
    intros [? | [? _]]; discriminate.
  - destruct (Download.spawn T (Exec.started (Download.machine s))
                (Exec.splitCommand (Download.download_command T (Some u))))
      as [p |] eqn:Hp.
    + rewrite (music_url_ran T b u s p Hu Hpr Hf Hp). cbv zeta.
      destruct (Exec.proc_code p =? 0) eqn:Hc.
      * apply Z.eqb_eq in Hc.
        assert (Hno : ~ (true = false
                  \/ (@None (list byte) = None
                      /\ ((@Some Exec.Process p = None
                           /\ Download.not_found T
                                (Exec.started (Download.machine s))
                                (Exec.splitCommand
                                   (Download.download_command T (Some u)))
                              = false)
                          \/ exists p0 : Exec.Process,
                               Some p = Some p0 /\ Exec.proc_code p0 <> 0)))).
        { intros [? | [_ [[? _] | (p0 & [= <-] & ?)]]];
            [discriminate | discriminate | contradiction]. }
        destruct (Download.find_mp3 _) as [e |];
          [destruct (truthy_str (Some (Download.path e))) |];
          (split; [split |];
           cbn [Download.world resp response_status status body];
           [discriminate | intros H; exfalso; exact (Hno H) | discriminate]).
      * apply Z.eqb_neq in Hc.
        split; [split |];
          cbn [Download.world Download.download resp response_status status
               body songs]; auto.
        intros _. right. split; [reflexivity |]. right. eauto.
    + rewrite (music_url_not_started T b u s Hu Hpr Hf Hp).
      destruct (Download.not_found T _ _) eqn:Hnf.
      * split; [split |];
          cbn [Download.world Download.download resp response_status status
               body songs error_response]; try discriminate.
        intros [? | [_ [[_ ?] | (p0 & ? & _)]]]; discriminate.
      * split; [split |];
          cbn [Download.world Download.download resp response_status status
               body songs error_response]; auto.
Qed.

(** X24. The url of the request is split like the rest of the command line:
    when the download directory is a plain word, the arguments of the
    downloader are "spotifydl", "--o", the directory, and then every
    argument the text of the url splits into. *)
Theorem downloader_arguments (url : option Json) :
  plain_word (Download.donwloadDir T) = true ->
  Exec.splitCommand (Download.download_command T url)
  = "spotifydl" :: "--o" :: Download.donwloadDir T
      :: Exec.splitCommand (Download.url_text url).
Proof.
  intros Hd. unfold Download.download_command, Exec.splitCommand.
  change ("spotifydl --o " +:+ Download.donwloadDir T +:+ " "
            +:+ Download.url_text url)
    with ("spotifydl" +:+ String " " ("--o" +:+ String " "
            (Download.donwloadDir T +:+ String " " (Download.url_text url)))).
  rewrite scan_word by reflexivity. rewrite scan_space by reflexivity.
  rewrite scan_word by reflexivity. rewrite scan_space by reflexivity.
  rewrite scan_word by (try assumption; reflexivity).
  now rewrite scan_space by reflexivity.
Qed.

End DownloadResults.

(** ** The further properties at the sample data *)

Lemma splitCommand_joined_words_witness :
  Forall (fun w => plain_word w = true) ["spotifydl"; "--o"; "data/download"] /\
  Exec.splitCommand "spotifydl --o data/download"
  = ["spotifydl"; "--o"; "data/download"].
Proof.
  assert (H : Forall (fun w => plain_word w = true)
                ["spotifydl"; "--o"; "data/download"])
    by (repeat constructor).
  split; [exact H |]. exact (splitCommand_joined_words _ H).
Defined.

Lemma splitCommand_quoted_argument_witness :
  quote_free "hello  world" = true /\
  Exec.splitCommand
    (String Exec.quote ("hello  world" +:+ String Exec.quote " again"))
  = ["hello  world"; "again"].
Proof.
  assert (H : quote_free "hello  world" = true) by reflexivity.
  split; [exact H |].
  destruct (splitCommand_quoted_argument "hello  world" " again" H) as [E _].
  rewrite E. reflexivity.
Defined.

Lemma exec_output_modes_witness :
  Demo.spawn (Exec.started Demo.machine) (Exec.splitCommand "ls -l")
  = Some (Exec.MkProcess [x20; x68; x69; x0a] 0 true) /\
  Exec.exec Demo.spawn "ls -l" (Exec.MkOptions (Some Exec.Tee) None None)
    Demo.machine
  = (Ok (Exec.MkExecResponse (Exec.MkStatus 0 true) [104%N; 105%N]),
     Exec.MkMachine 1 [x20; x68; x69; x0a]).
Proof.
  assert (H : Demo.spawn (Exec.started Demo.machine) (Exec.splitCommand "ls -l")
              = Some (Exec.MkProcess [x20; x68; x69; x0a] 0 true))
    by reflexivity.
  split; [exact H |].
  destruct (exec_output_modes Demo.spawn "ls -l"
              (Exec.MkOptions (Some Exec.Tee) None None) Demo.machine _ H)
    as [E _].
  rewrite E. reflexivity.
Defined.

Lemma execSequence_runs_all_witness :
  Exec.stops_on_error Exec.exec_defaults = false /\
  (exists rs m',
     Exec.execSequence Demo.spawn ["a"; "b"; "c"] Exec.exec_defaults Demo.machine
     = (Ok rs, m')
     /\ length rs = 3%nat /\ Exec.started m' = 3%nat).
Proof.
  assert (H : Exec.stops_on_error Exec.exec_defaults = false) by reflexivity.
  split; [exact H |].
  destruct (Exec.execSequence Demo.spawn ["a"; "b"; "c"] Exec.exec_defaults
              Demo.machine) as [[rs | e] m'] eqn:E; [| discriminate E].
  exists rs, m'. split; [reflexivity |].
  exact (execSequence_runs_all Demo.spawn _ _ rs Demo.machine m' H E).
Defined.

Lemma execSequence_stops_at_failure_witness :
  Exec.stops_on_error Exec.execSequence_defaults = true /\
  (exists rs m',
     Exec.execSequence Demo.spawn ["a"; "b"; "c"] Exec.execSequence_defaults
       Demo.machine = (Ok rs, m')
     /\ Exec.started m' = (0 + length rs)%nat /\ length rs = 2%nat).
Proof.
  assert (H : Exec.stops_on_error Exec.execSequence_defaults = true)
    by reflexivity.
  split; [exact H |].
  destruct (Exec.execSequence Demo.spawn ["a"; "b"; "c"]
              Exec.execSequence_defaults Demo.machine)
    as [[rs | e] m'] eqn:E; [| discriminate E].
  exists rs, m'. split; [reflexivity |].
  destruct (execSequence_stops_at_failure Demo.spawn _ _ rs Demo.machine m' H E)
    as (good & tail & _ & _ & _ & Hm).
  split; [exact Hm |]. vm_compute in E. now injection E as <- _.
Defined.

Lemma execSequence_start_failure_witness :
  Exec.stops_on_error Exec.exec_defaults = false /\
  Demo.picky (Exec.started Demo.machine + length ["a"; "b"])
    (Exec.splitCommand "missing") = None /\
  fst (Exec.execSequence Demo.picky (["a"; "b"] ++ "missing" :: ["c"])%list
         Exec.exec_defaults Demo.machine) = Throw IOError.
Proof.
  assert (H1 : Exec.stops_on_error Exec.exec_defaults = false) by reflexivity.
  assert (H2 : forall n argv,
             In argv (map Exec.splitCommand ["a"; "b"]) ->
             is_Some (Demo.picky n argv)).
  { intros n argv [<- | [<- | []]]; simpl; eauto. }
  assert (H3 : Demo.picky (Exec.started Demo.machine + length ["a"; "b"])
                 (Exec.splitCommand "missing") = None) by reflexivity.
  split; [exact H1 | split; [exact H3 |]].
  exact (execSequence_start_failure Demo.picky ["a"; "b"] "missing" ["c"]
           Exec.exec_defaults Demo.machine H1 H2 H3).
Defined.

Lemma whole_song_is_served_witness :
  songs Sample.world !! join Sample.platform (songsDir Sample.platform) "a.mp3"
    = Some Sample.song /\
  (@None string = None \/ @None string = Some EmptyString) /\
  body (resp (get_songs_id Sample.platform "a.mp3" None Sample.world))
    = Some (BodyBytes Sample.song).
Proof.
  assert (H1 : songs Sample.world
                 !! join Sample.platform (songsDir Sample.platform) "a.mp3"
               = Some Sample.song) by reflexivity.
  assert (H2 : @None string = None \/ @None string = Some EmptyString)
    by (left; reflexivity).
  split; [exact H1 | split; [exact H2 |]].
  destruct (whole_song_is_served Sample.platform Sample.world "a.mp3" None
              Sample.song H1 H2) as (_ & _ & _ & Hb & _).
  exact Hb.
Defined.

Lemma ranged_read_is_exact_witness :
  songs Sample.world !! join Sample.platform (songsDir Sample.platform) "a.mp3"
    = Some Sample.song /\
  parse_range "bytes=1-2" (Z.of_nat (length Sample.song)) = (Num 1, Num 2) /\
  body (resp (get_songs_id Sample.platform "a.mp3" (Some "bytes=1-2") Sample.world))
    = Some (BodyBytes [x02; x03]).
Proof.
  assert (H1 : songs Sample.world
                 !! join Sample.platform (songsDir Sample.platform) "a.mp3"
               = Some Sample.song) by reflexivity.
  assert (H2 : truthy_str (Some "bytes=1-2") = true) by reflexivity.
  assert (H3 : parse_range "bytes=1-2" (Z.of_nat (length Sample.song))
               = (Num 1, Num 2)) by reflexivity.
  split; [exact H1 | split; [exact H3 |]].
  destruct (ranged_read_is_exact Sample.platform Sample.world "a.mp3"
              "bytes=1-2" Sample.song 1 2 H1 H2 H3) as [_ Hb].
  - lia.
  - simpl. lia.
  - right. simpl. lia.
  - simpl. lia.
  - exact Hb.
Defined.

Lemma ranged_body_is_bounded_witness :
  songs Sample.world !! join Sample.platform (songsDir Sample.platform) "a.mp3"
    = Some Sample.song /\
  truthy_str (Some "bytes=0-5000000") = true /\
  parse_range "bytes=0-5000000" (Z.of_nat (length Sample.song))
    = (Num 0, Num 1048575) /\
  Z.of_nat (length Sample.song) <= MAX_SAFE_INTEGER /\
  safe_start (Num 0) = true /\
  response_status
    (resp (get_songs_id Sample.platform "a.mp3" (Some "bytes=0-5000000")
             Sample.world)) = 206%nat /\
  (exists b : list byte,
     body (resp (get_songs_id Sample.platform "a.mp3" (Some "bytes=0-5000000")
                   Sample.world)) = Some (BodyBytes b)
     /\ Z.of_nat (length b) <= 1048576).
Proof.
  assert (H1 : songs Sample.world
                 !! join Sample.platform (songsDir Sample.platform) "a.mp3"
               = Some Sample.song) by reflexivity.
  assert (H2 : truthy_str (Some "bytes=0-5000000") = true) by reflexivity.
  assert (H3 : parse_range "bytes=0-5000000" (Z.of_nat (length Sample.song))
               = (Num 0, Num 1048575)) by reflexivity.
  assert (H4 : Z.of_nat (length Sample.song) <= MAX_SAFE_INTEGER)
    by (vm_compute; discriminate).
  assert (H5 : safe_start (Num 0) = true) by reflexivity.
  assert (H6 : response_status
                 (resp (get_songs_id Sample.platform "a.mp3"
                          (Some "bytes=0-5000000") Sample.world)) = 206%nat).
  { rewrite (get_song_ranged Sample.platform Sample.world "a.mp3"
               "bytes=0-5000000" Sample.song (Num 0) (Num 1048575) H1 H2 H3).
    rewrite seek_target_num by (try lia; left; simpl; lia).
    change (num_add (num_sub (Num 1048575) (Num 0)) (Num 1)) with (Num 1048576).
    rewrite new_Uint8Array_num by lia. reflexivity. }
  split; [exact H1 | split; [exact H2 | split; [exact H3 |]]].
  split; [exact H4 | split; [exact H5 | split; [exact H6 |]]].
  exact (ranged_body_is_bounded Sample.platform Sample.world "a.mp3"
           "bytes=0-5000000" Sample.song (Num 0) (Num 1048575)
           H1 H2 H3 H4 H5 H6).
Defined.


(** A payload the store rejects: the request fails, and the store stays
    as it was. *)
Lemma cache_request_fails_iff_witness :
  url_prints Sample.descriptor = true /\
  upstream Sample.cramped (calls Sample.world)
    (upstream_request Sample.cramped Sample.descriptor)
  = Some (JStr "payload") /\
  kv_accepts Sample.cramped (JStr "payload") = false /\
  response_status
    (resp (post_cache_request Sample.cramped Sample.descriptor Sample.world))
  = 500%nat /\
  kv (post_cache_request Sample.cramped Sample.descriptor Sample.world)
  = kv Sample.world.
Proof.
  assert (H1 : url_prints Sample.descriptor = true) by reflexivity.
  assert (H2 : upstream Sample.cramped (calls Sample.world)
                 (upstream_request Sample.cramped Sample.descriptor)
               = Some (JStr "payload")) by reflexivity.
  assert (H3 : kv_accepts Sample.cramped (JStr "payload") = false)
    by reflexivity.
  destruct (cache_request_fails_iff Sample.cramped Sample.descriptor
              Sample.world H1) as [[_ Hfail] Hkv].
  assert (H4 : response_status
                 (resp (post_cache_request Sample.cramped Sample.descriptor
                          Sample.world)) = 500%nat).
  { apply Hfail. right. split; [reflexivity |]. right.
    exists (JStr "payload"). split; [exact H2 | exact H3]. }
  split; [exact H1 | split; [exact H2 | split; [exact H3 |]]].
  split; [exact H4 | exact (Hkv H4)].
Defined.

Lemma equal_fingerprints_share_an_entry_witness :
  hash Sample.platform Sample.descriptor
  = hash Sample.platform Sample.descriptor_swapped /\
  (url_prints Sample.descriptor = true /\
   url_prints Sample.descriptor_swapped = true) /\
  upstream Sample.platform (calls Sample.warm)
    (upstream_request Sample.platform Sample.descriptor) = Some (JNum 1) /\
  kv_accepts Sample.platform (JNum 1) = true /\
  body (resp (post_cache_request Sample.platform Sample.descriptor_swapped
                (post_cache_request Sample.platform Sample.descriptor Sample.warm)))
    = Some (BodyJson (JNum 1)).
Proof.
  assert (H1 : Sample.descriptor <> JNull) by discriminate.
  assert (H2 : Sample.descriptor_swapped <> JNull) by discriminate.
  assert (H3 : hash Sample.platform Sample.descriptor
               = hash Sample.platform Sample.descriptor_swapped) by reflexivity.
  assert (H4 : truthy (default JNull
                         (kv Sample.warm !! hash Sample.platform Sample.descriptor))
               = false) by reflexivity.
  assert (H5 : upstream Sample.platform (calls Sample.warm)
                 (upstream_request Sample.platform Sample.descriptor)
               = Some (JNum 1)) by reflexivity.
  assert (H6 : truthy (JNum 1) = true) by reflexivity.
  assert (H7 : url_prints Sample.descriptor = true) by reflexivity.
  assert (H8 : url_prints Sample.descriptor_swapped = true) by reflexivity.
  assert (H9 : kv_accepts Sample.platform (JNum 1) = true) by reflexivity.
  split; [exact H3 | split; [exact (conj H7 H8) | split; [exact H5 |]]].
  split; [exact H9 |].
  destruct (equal_fingerprints_share_an_entry Sample.platform Sample.descriptor
              Sample.descriptor_swapped (JNum 1) Sample.warm
              H1 H2 H7 H8 H3 H4 H5 H6 H9)
    as [Hb _].
  exact Hb.
Defined.

Lemma written_range_is_parsed_witness :
  (0 <= 100 /\ 0 <= 199 /\ 0 <= 1000) /\
  (199 <= MAX_SAFE_INTEGER /\ 1000 <= MAX_SAFE_INTEGER /\
   100 + maxChunk <= MAX_SAFE_INTEGER) /\
  parse_range
    ("bytes=" +:+ number_to_string (Num 100) +:+ "-" +:+ number_to_string (Num 199))
    1000
  = (Num 100, Num (if maxChunk <? 199 - 100 + 1 then 100 + maxChunk - 1 else 199)).
Proof.
  assert (H1 : 0 <= 100) by lia. assert (H2 : 0 <= 199) by lia.
  assert (H3 : 0 <= 1000) by lia.
  assert (H4 : 199 <= MAX_SAFE_INTEGER) by (vm_compute; discriminate).
  assert (H5 : 1000 <= MAX_SAFE_INTEGER) by (vm_compute; discriminate).
  assert (H6 : 100 + maxChunk <= MAX_SAFE_INTEGER) by (vm_compute; discriminate).
  split; [exact (conj H1 (conj H2 H3)) |].
  split; [exact (conj H4 (conj H5 H6)) |].
  destruct (written_range_is_parsed 100 199 1000 H1 H2 H3 H4 H5 H6) as [E _].
  exact E.
Defined.

Lemma present_song_is_not_downloaded_witness :
  Download.body_url Demo.request = Some Demo.url /\
  Download.printable Demo.url = true /\
  songs (Download.world Demo.loaded) !! Download.songPath Demo.tools Demo.url
  = Some [x05; x06; x07] /\
  Download.machine (Download.post_music_url Demo.tools Demo.request Demo.loaded)
  = Download.machine Demo.loaded.
Proof.
  assert (H0 : Download.body_url Demo.request = Some Demo.url) by reflexivity.
  assert (H1 : Download.printable Demo.url = true) by reflexivity.
  assert (H2 : songs (Download.world Demo.loaded)
                 !! Download.songPath Demo.tools Demo.url
               = Some [x05; x06; x07]) by reflexivity.
  split; [exact H0 | split; [exact H1 | split; [exact H2 |]]].
  destruct (present_song_is_not_downloaded Demo.tools Demo.request Demo.url
              Demo.loaded _ H0 H1 H2) as (_ & _ & Hm & _).
  exact Hm.
Defined.

Lemma failed_download_is_reported_witness :
  Download.body_url Demo.request = Some Demo.url /\
  Download.printable Demo.url = true /\
  songs (Download.world Demo.tired) !! Download.songPath Demo.tools Demo.url
  = None /\
  Download.spawn Demo.tools (Exec.started (Download.machine Demo.tired))
    (Exec.splitCommand (Download.download_command Demo.tools (Some Demo.url)))
  = Some (Exec.MkProcess [x20; x68; x69; x0a] 1 false) /\
  body (resp (Download.world
                (Download.post_music_url Demo.tools Demo.request Demo.tired)))
  = Some (BodyText "Failed to download song").
Proof.
  assert (H0 : Download.body_url Demo.request = Some Demo.url) by reflexivity.
  assert (H1 : Download.printable Demo.url = true) by reflexivity.
  assert (H2 : songs (Download.world Demo.tired)
                 !! Download.songPath Demo.tools Demo.url
               = None) by reflexivity.
  assert (H3 : Download.spawn Demo.tools
                 (Exec.started (Download.machine Demo.tired))
                 (Exec.splitCommand
                    (Download.download_command Demo.tools (Some Demo.url)))
               = Some (Exec.MkProcess [x20; x68; x69; x0a] 1 false))
    by reflexivity.
  assert (H4 : Exec.proc_code (Exec.MkProcess [x20; x68; x69; x0a] 1 false) <> 0)
    by discriminate.
  split; [exact H0 | split; [exact H1 | split; [exact H2 | split; [exact H3 |]]]].
  destruct (failed_download_is_reported Demo.tools Demo.request Demo.url
              Demo.tired _ H0 H1 H2 H3 H4) as (_ & Hb & _).
  exact Hb.
Defined.

Lemma downloaded_song_is_served_witness :
  Download.body_url Demo.request = Some Demo.url /\
  Download.printable Demo.url = true /\
  songs (Download.world Demo.host) !! Download.songPath Demo.tools Demo.url
  = None /\
  Download.find_mp3
    (Download.after_run Demo.tools (Exec.started (Download.machine Demo.host))
       (Exec.splitCommand (Download.download_command Demo.tools (Some Demo.url)))
       (Download.download Demo.host))
  = Some (Download.MkEntry "data/download/track.mp3" "track.mp3" true
            [x05; x06; x07]) /\
  body
    (resp (get_songs_id (Download.base Demo.tools)
             (Download.songFilename Demo.tools Demo.url) None
             (Download.world
                (Download.post_music_url Demo.tools Demo.request Demo.host))))
  = Some (BodyBytes [x05; x06; x07]).
Proof.
  assert (H0 : Download.body_url Demo.request = Some Demo.url) by reflexivity.
  assert (H1 : Download.printable Demo.url = true) by reflexivity.
  assert (H2 : songs (Download.world Demo.host)
                 !! Download.songPath Demo.tools Demo.url
               = None) by reflexivity.
  assert (H3 : Download.spawn Demo.tools
                 (Exec.started (Download.machine Demo.host))
                 (Exec.splitCommand
                    (Download.download_command Demo.tools (Some Demo.url)))
               = Some (Exec.MkProcess [x20; x68; x69; x0a] 0 true))
    by reflexivity.
  assert (H4 : Exec.proc_code (Exec.MkProcess [x20; x68; x69; x0a] 0 true) = 0)
    by reflexivity.
  assert (H5 : Download.find_mp3
                 (Download.after_run Demo.tools
                    (Exec.started (Download.machine Demo.host))
                    (Exec.splitCommand
                       (Download.download_command Demo.tools (Some Demo.url)))
                    (Download.download Demo.host))
               = Some (Download.MkEntry "data/download/track.mp3" "track.mp3"
                         true [x05; x06; x07])) by reflexivity.
  assert (H6 : Download.path
                 (Download.MkEntry "data/download/track.mp3" "track.mp3" true
                    [x05; x06; x07]) <> EmptyString) by discriminate.
  split; [exact H0 | split; [exact H1 | split; [exact H2 | split; [exact H5 |]]]].
  destruct (downloaded_song_is_served Demo.tools Demo.request Demo.url Demo.host
              _ _ H0 H1 H2 H3 H4 H5 H6) as (_ & _ & _ & Hb & _).
  exact Hb.
Defined.

Lemma fruitless_download_is_silent_witness :
  Download.body_url Demo.request = Some Demo.url /\
  Download.printable Demo.url = true /\
  songs (Download.world Demo.host) !! Download.songPath Demo.fruitless Demo.url
  = None /\
  Download.find_mp3
    (Download.after_run Demo.fruitless
       (Exec.started (Download.machine Demo.host))
       (Exec.splitCommand
          (Download.download_command Demo.fruitless (Some Demo.url)))
       (Download.download Demo.host)) = None /\
  response_status
    (resp (Download.world
             (Download.post_music_url Demo.fruitless Demo.request Demo.host)))
  = 404%nat.
Proof.
  assert (H0 : Download.body_url Demo.request = Some Demo.url) by reflexivity.
  assert (H1 : Download.printable Demo.url = true) by reflexivity.
  assert (H2 : songs (Download.world Demo.host)
                 !! Download.songPath Demo.fruitless Demo.url
               = None) by reflexivity.
  assert (H3 : Download.spawn Demo.fruitless
                 (Exec.started (Download.machine Demo.host))
                 (Exec.splitCommand
                    (Download.download_command Demo.fruitless (Some Demo.url)))
               = Some (Exec.MkProcess [x20; x68; x69; x0a] 0 true))
    by reflexivity.
  assert (H4 : Exec.proc_code (Exec.MkProcess [x20; x68; x69; x0a] 0 true) = 0)
    by reflexivity.
  assert (H5 : Download.find_mp3
                 (Download.after_run Demo.fruitless
                    (Exec.started (Download.machine Demo.host))
                    (Exec.splitCommand
                       (Download.download_command Demo.fruitless
                          (Some Demo.url)))
                    (Download.download Demo.host)) = None) by reflexivity.
  split; [exact H0 | split; [exact H1 | split; [exact H2 | split; [exact H5 |]]]].
  destruct (fruitless_download_is_silent Demo.fruitless Demo.request Demo.url
              Demo.host _ H0 H1 H2 H3 H4 H5) as (_ & Hs & _).
  exact Hs.
Defined.

(** A downloader that is not installed: the answer is 404. *)
Lemma unstartable_downloader_fails_witness :
  Download.body_url Demo.request = Some Demo.url /\
  Download.printable Demo.url = true /\
  songs (Download.world Demo.host)
    !! Download.songPath Demo.missing_tool Demo.url = None /\
  Download.spawn Demo.missing_tool (Exec.started (Download.machine Demo.host))
    (Exec.splitCommand
       (Download.download_command Demo.missing_tool (Some Demo.url))) = None /\
  response_status
    (resp (Download.world
             (Download.post_music_url Demo.missing_tool Demo.request Demo.host)))
  = 404%nat /\
  body
    (resp (Download.world
             (Download.post_music_url Demo.missing_tool Demo.request Demo.host)))
  = Some (BodyText "Not Found").
Proof.
  assert (H0 : Download.body_url Demo.request = Some Demo.url) by reflexivity.
  assert (H1 : Download.printable Demo.url = true) by reflexivity.
  assert (H2 : songs (Download.world Demo.host)
                 !! Download.songPath Demo.missing_tool Demo.url
               = None) by reflexivity.
  assert (H3 : Download.spawn Demo.missing_tool
                 (Exec.started (Download.machine Demo.host))
                 (Exec.splitCommand
                    (Download.download_command Demo.missing_tool
                       (Some Demo.url))) = None)
    by reflexivity.
  split; [exact H0 | split; [exact H1 | split; [exact H2 | split; [exact H3 |]]]].
  destruct (unstartable_downloader_fails Demo.missing_tool Demo.request
              Demo.url Demo.host H0 H1 H2 H3) as (Hs & Hb & _).
  split; [exact Hs | exact Hb].
Defined.

(** A downloader that may not be run makes the request fail with status
    500; so does a body without a url. *)
Example download_failures_at_sample :
  response_status
    (resp (Download.world
             (Download.post_music_url Demo.forbidden_tool Demo.request
                Demo.host))) = 500%nat /\
  response_status
    (resp (Download.world
             (Download.post_music_url Demo.tools (JObj []) Demo.host)))
  = 500%nat /\
  response_status
    (resp (Download.world
             (Download.post_music_url Demo.tools
                (JObj [("url", JObj [("toString", JNum 1)])]) Demo.host)))
  = 500%nat.
Proof. vm_compute. repeat split. Qed.

Lemma downloader_arguments_witness :
  plain_word (Download.donwloadDir Demo.tools) = true /\
  Exec.splitCommand
    (Download.download_command Demo.tools
       (Some (JStr "https://open.example/track/1 --extra")))
  = ["spotifydl"; "--o"; "data/download"; "https://open.example/track/1";
     "--extra"].
Proof.
  assert (H : plain_word (Download.donwloadDir Demo.tools) = true)
    by reflexivity.
  split; [exact H |].
  rewrite (downloader_arguments Demo.tools _ H). reflexivity.
Defined.
